(** * Mesh metadata and padding/chunking helpers of the composable FSDP layer

    A shallow embedding of
    [torch/distributed/_composable/fsdp/_fsdp_common.py]: the mesh-info
    dataclasses with their cooperative [__post_init__] chain, the
    composability check, the dim-0 padding and chunking helpers, the
    non-differentiable [DTensor] constructor wrapper and the fatal
    assertion helper.  Python integers are [Z]; raising is the [Raise]
    branch of [result]. *)

From Stdlib Require Import ZArith Lia Ascii String.
From stdpp Require Import base option list gmap strings pretty.

Open Scope Z_scope.

(** ** Python values, exceptions and results *)

(** The few Python values that travel as positional and keyword
    arguments. *)
Inductive pyval :=
  | VNone
  | VBool (b : bool)
  | VInt (n : Z)
  | VStr (s : string).

Inductive exn :=
  | AssertionError (args : list pyval)
  | TypeError (msg : string)
  | IndexError (msg : string)
  | ZeroDivisionError (msg : string)
  | AttributeError (msg : string)
  | RuntimeError (msg : string).

Inductive result (A : Type) :=
  | Ok (a : A)
  | Raise (e : exn).
Arguments Ok {A} a.
Arguments Raise {A} e.

#[global] Instance result_ret : MRet result := λ A a, Ok a.
#[global] Instance result_bind : MBind result :=
  λ A B f m, match m with Ok a => f a | Raise e => Raise e end.

Definition is_Ok {A} (r : result A) : bool :=
  match r with Ok _ => true | Raise _ => false end.

(** [a % b] on Python integers: floor remainder, [ZeroDivisionError] for a
    zero divisor. *)
Definition py_mod (a b : Z) : result Z :=
  if decide (b = 0) then Raise (ZeroDivisionError "integer modulo by zero")
  else Ok (a `mod` b).

(** ** [torch.Size] *)

(** A [torch.Size] is a tuple of Python integers. *)
Abbreviation Size := (list Z).

(** [size[0]]: [IndexError] on the empty tuple. *)
Definition Size_getitem0 (size : Size) : result Z :=
  match size with
  | [] => Raise (IndexError "tuple index out of range")
  | d :: _ => Ok d
  end.

Definition _get_dim0_padded_size (tensor_size : Size) (dim0_factor : Z)
  : result Size :=
  d0 ← Size_getitem0 tensor_size;
  if bool_decide (d0 < dim0_factor) then
    Ok ([dim0_factor] ++ drop 1 tensor_size)
  else
    r ← py_mod d0 dim0_factor;
    if bool_decide (r ≠ 0) then
      Ok ([d0 + dim0_factor - r] ++ drop 1 tensor_size)
    else
      Ok tensor_size.

(** ** Device mesh interface *)

(** [DeviceMesh] and [ProcessGroup] live outside this file; the mesh-info
    classes only call [mesh.size(dim)], [mesh.get_group(dim)] and
    [group.rank()].  The first two raise on a bad dimension. *)
Class DeviceMeshOps (DeviceMesh ProcessGroup : Type) := {
  DeviceMesh_size : DeviceMesh → Z → result Z;
  DeviceMesh_get_group : DeviceMesh → Z → result ProcessGroup;
  ProcessGroup_rank : ProcessGroup → Z
}.

(** ** The mesh-info dataclasses *)

Inductive class :=
  | DataParallelMeshInfo
  | FSDPMeshInfo
  | DDPMeshInfo
  | HSDPMeshInfo.

#[global] Instance class_eq_dec : EqDecision class.
Proof. solve_decision. Defined.

(** The base classes as written in each [class] statement ([object] is left
    implicit: it defines no [__post_init__]). *)
Definition bases (c : class) : list class :=
  match c with
  | DataParallelMeshInfo => []
  | FSDPMeshInfo => [DataParallelMeshInfo]
  | DDPMeshInfo => [DataParallelMeshInfo]
  | HSDPMeshInfo => [FSDPMeshInfo; DDPMeshInfo]
  end.

(** C3 linearisation, the algorithm Python uses for [__mro__]. *)
Definition c3_good_head (seqs : list (list class)) (h : class) : bool :=
  forallb (λ s, negb (bool_decide (h ∈ drop 1 s))) seqs.

Definition c3_pick (seqs : list (list class)) : option class :=
  head (filter (λ h, c3_good_head seqs h = true) (omap head seqs)).

Definition c3_strip (h : class) (s : list class) : list class :=
  match s with
  | x :: s' => if decide (x = h) then s' else s
  | [] => []
  end.

Fixpoint c3_merge (fuel : nat) (seqs : list (list class))
  : option (list class) :=
  match filter (λ s, s ≠ []) seqs with
  | [] => Some []
  | live =>
      match fuel with
      | O => None
      | S fuel =>
          h ← c3_pick live;
          rest ← c3_merge fuel (c3_strip h <$> live);
          Some (h :: rest)
      end
  end.

Fixpoint c3_mro (fuel : nat) (c : class) : option (list class) :=
  match fuel with
  | O => None
  | S fuel =>
      parents ← mapM (c3_mro fuel) (bases c);
      tail ← c3_merge (length (mjoin parents) + length (bases c))
                (parents ++ [bases c]);
      Some (c :: tail)
  end.

(** [cls.__mro__] without the trailing [object]. *)
Definition mro (c : class) : list class :=
  match c with
  | DataParallelMeshInfo => [DataParallelMeshInfo]
  | FSDPMeshInfo => [FSDPMeshInfo; DataParallelMeshInfo]
  | DDPMeshInfo => [DDPMeshInfo; DataParallelMeshInfo]
  | HSDPMeshInfo =>
      [HSDPMeshInfo; FSDPMeshInfo; DDPMeshInfo; DataParallelMeshInfo]
  end.

(** [super(c, self)]: the class that follows [c] in [type(self).__mro__];
    every class of this hierarchy defines [__post_init__], so that is where
    the attribute lookup lands.  [None] when only [object] is left. *)
Fixpoint mro_after (c : class) (l : list class) : list class :=
  match l with
  | [] => []
  | x :: l' => if decide (x = c) then l' else mro_after c l'
  end.

Definition super (c self_class : class) : option class :=
  head (mro_after c (mro self_class)).

Section MeshInfo.
Context {DeviceMesh ProcessGroup : Type}.
Context `{!DeviceMeshOps DeviceMesh ProcessGroup}.

(** An instance: its class, the three dataclass fields, and the
    attributes that [__post_init__] assigns.  An attribute that was never
    assigned is [None] here, and reading it raises [AttributeError]. *)
Record MeshInfo := {
  __class__ : class;
  mesh : DeviceMesh;
  shard_mesh_dim : option Z;
  replicate_mesh_dim : option Z;
  shard_mesh_size : option Z;
  shard_process_group : option ProcessGroup;
  shard_mesh_rank : option Z;
  replicate_mesh_size : option Z;
  replicate_process_group : option ProcessGroup;
  replicate_mesh_rank : option Z
}.

Definition set_shard (size : Z) (pg : ProcessGroup) (rank : Z)
    (self : MeshInfo) : MeshInfo :=
  {| __class__ := __class__ self; mesh := mesh self;
     shard_mesh_dim := shard_mesh_dim self;
     replicate_mesh_dim := replicate_mesh_dim self;
     shard_mesh_size := Some size;
     shard_process_group := Some pg;
     shard_mesh_rank := Some rank;
     replicate_mesh_size := replicate_mesh_size self;
     replicate_process_group := replicate_process_group self;
     replicate_mesh_rank := replicate_mesh_rank self |}.

Definition set_replicate (size : Z) (pg : ProcessGroup) (rank : Z)
    (self : MeshInfo) : MeshInfo :=
  {| __class__ := __class__ self; mesh := mesh self;
     shard_mesh_dim := shard_mesh_dim self;
     replicate_mesh_dim := replicate_mesh_dim self;
     shard_mesh_size := shard_mesh_size self;
     shard_process_group := shard_process_group self;
     shard_mesh_rank := shard_mesh_rank self;
     replicate_mesh_size := Some size;
     replicate_process_group := Some pg;
     replicate_mesh_rank := Some rank |}.

(** [getattr(self, name)] for an attribute assigned in [__post_init__]. *)
Definition getattr {A} (name : string) (field : MeshInfo → option A)
    (self : MeshInfo) : result A :=
  match field self with
  | Some v => Ok v
  | None => Raise (AttributeError ("object has no attribute " +:+ name))
  end.

(** The body of [c.__post_init__(self)].  [fuel] bounds the depth of the
    chain of [super()] calls; running out is Python's [RecursionError]. *)
Fixpoint post_init (fuel : nat) (c : class) (self : MeshInfo)
  : result MeshInfo :=
  match fuel with
  | O => Raise (RuntimeError "maximum recursion depth exceeded")
  | S fuel =>
      let super_post_init (c' : class) (self : MeshInfo) :=
        match super c' (__class__ self) with
        | Some next => post_init fuel next self
        | None =>
            Raise (AttributeError
                     "'super' object has no attribute '__post_init__'")
        end in
      match c with
      | DataParallelMeshInfo =>
          match shard_mesh_dim self, replicate_mesh_dim self with
          | None, None =>
              Raise (AssertionError [VStr
                "At least one of shard_mesh_dim and replicate_mesh_dim must not be None"])
          | _, _ => Ok self
          end
      | FSDPMeshInfo =>
          self ← super_post_init FSDPMeshInfo self;
          match shard_mesh_dim self with
          | None =>
              Raise (AssertionError [VStr "Expects non-None shard_mesh_dim"])
          | Some dim =>
              size ← DeviceMesh_size (mesh self) dim;
              pg ← DeviceMesh_get_group (mesh self) dim;
              Ok (set_shard size pg (ProcessGroup_rank pg) self)
          end
      | DDPMeshInfo =>
          self ← super_post_init DDPMeshInfo self;
          match replicate_mesh_dim self with
          | None =>
              Raise (AssertionError
                       [VStr "Expects non-None replicate_mesh_dim"])
          | Some dim =>
              size ← DeviceMesh_size (mesh self) dim;
              pg ← DeviceMesh_get_group (mesh self) dim;
              Ok (set_replicate size pg (ProcessGroup_rank pg) self)
          end
      | HSDPMeshInfo =>
          self ← super_post_init FSDPMeshInfo self;
          super_post_init DDPMeshInfo self
      end
  end.

(** Python's default recursion limit. *)
Definition recursion_limit : nat := 1000.

(** [self.__post_init__()]: ordinary method lookup starts at the
    instance's own class. *)
Definition __post_init__ (self : MeshInfo) : result MeshInfo :=
  post_init recursion_limit (__class__ self) self.

(** The [@dataclass]-generated [__init__]: store the fields, then call
    [__post_init__]. *)
Definition construct (cls : class) (mesh : DeviceMesh)
    (shard_mesh_dim replicate_mesh_dim : option Z) : result MeshInfo :=
  __post_init__
    {| __class__ := cls; mesh := mesh;
       shard_mesh_dim := shard_mesh_dim;
       replicate_mesh_dim := replicate_mesh_dim;
       shard_mesh_size := None; shard_process_group := None;
       shard_mesh_rank := None;
       replicate_mesh_size := None; replicate_process_group := None;
       replicate_mesh_rank := None |}.
End MeshInfo.

Arguments MeshInfo : clear implicits.

(** Modelled from the spec: the [DeviceMesh] class itself is not part of
    these sources.  Following the spec's MeshTopology ("a multi-dimensional
    array of process ranks" exposing "per named dimension, the size and the
    sub-group of ranks along that dimension"), a grid mesh is the shape of
    the array together with the coordinates of the calling process; the
    sub-group along a dimension has that dimension's size, and the caller's
    rank in it is its coordinate along that dimension. *)
Record GridMesh := {
  grid_shape : list Z;
  grid_coord : list Z
}.

Record GridGroup := {
  group_size : Z;
  group_rank : Z
}.

Definition grid_index (l : list Z) (dim : Z) : result Z :=
  if bool_decide (0 ≤ dim) then
    match l !! Z.to_nat dim with
    | Some v => Ok v
    | None => Raise (IndexError "mesh dimension out of range")
    end
  else Raise (IndexError "mesh dimension out of range").

#[global] Instance grid_mesh_ops : DeviceMeshOps GridMesh GridGroup := {|
  DeviceMesh_size m dim := grid_index (grid_shape m) dim;
  DeviceMesh_get_group m dim :=
    size ← grid_index (grid_shape m) dim;
    rank ← grid_index (grid_coord m) dim;
    Ok {| group_size := size; group_rank := rank |};
  ProcessGroup_rank := group_rank
|}.

(** ** Tensors *)

Inductive dtype := float32 | float16 | bfloat16 | int64.
Inductive device := cpu | cuda (index : nat).

#[global] Instance dtype_eq_dec : EqDecision dtype.
Proof. solve_decision. Defined.
#[global] Instance device_eq_dec : EqDecision device.
Proof. solve_decision. Defined.

(** The logical content of a tensor: its metadata, its shape, and its
    elements in row-major order. *)
Record Tensor := {
  tensor_dtype : dtype;
  tensor_device : device;
  tensor_requires_grad : bool;
  tensor_shape : list nat;
  tensor_data : list Z
}.

Definition numel (shape : list nat) : nat := foldr Nat.mul 1%nat shape.

(** The invariant every tensor satisfies: as many elements as the shape
    says. *)
Definition tensor_wf (t : Tensor) : Prop :=
  length (tensor_data t) = numel (tensor_shape t).

(** Modelled from the spec: the tensor library ([torch.chunk],
    [Tensor.narrow], [Tensor.new_empty], concatenation) is not part of these
    sources.  The spec describes chunking as splitting "into ...
    contiguous pieces along [dim]" of size [ceil(L/N)], possibly yielding
    "fewer pieces than requested", and placeholders "sharing the same
    dtype/device"; the definitions below follow that description and the
    library's documented behaviour, over unbounded integers. *)
Module torch.

(** A dimension index may be negative, counting from the end. *)
Definition wrap_dim (dim : Z) (ndim : nat) : result nat :=
  if bool_decide (- Z.of_nat ndim ≤ dim < Z.of_nat ndim) then
    Ok (Z.to_nat (if bool_decide (dim < 0) then dim + Z.of_nat ndim
                  else dim))
  else Raise (IndexError "Dimension out of range").

(** Rows of a tensor seen from dimension [d]: [outer] blocks, each of
    [size d * inner] elements. *)
Definition outer (shape : list nat) (d : nat) : nat := numel (take d shape).
Definition inner (shape : list nat) (d : nat) : nat :=
  numel (drop (S d) shape).
Definition size (t : Tensor) (d : nat) : nat :=
  default 0%nat (tensor_shape t !! d).

(** From each of [blocks] consecutive blocks of [row] elements keep the
    [len] elements starting at [off]. *)
Fixpoint narrow_data (blocks row off len : nat) (data : list Z) : list Z :=
  match blocks with
  | O => []
  | S blocks =>
      take len (drop off data)
        ++ narrow_data blocks row off len (drop row data)
  end.

(** [t.narrow(d, start, length)]: a view of the slice
    [start .. start + length) along dimension [d]. *)
Definition narrow (t : Tensor) (d start length : nat) : Tensor :=
  let sh := tensor_shape t in
  {| tensor_dtype := tensor_dtype t;
     tensor_device := tensor_device t;
     tensor_requires_grad := tensor_requires_grad t;
     tensor_shape := <[d := length]> sh;
     tensor_data :=
       narrow_data (outer sh d) (size t d * inner sh d)
         (start * inner sh d) (length * inner sh d) (tensor_data t) |}.

(** [t.split(split_size, d)]: pieces of [split_size] along [d], the last
    one holding what is left; always at least one piece. *)
Definition split (t : Tensor) (split_size : nat) (d : nat) : list Tensor :=
  let dim_size := size t d in
  let num_splits :=
    Nat.max ((dim_size + split_size - 1) / split_size) 1 in
  let last_split_size := (split_size - (split_size * num_splits - dim_size))%nat in
  (λ i, narrow t d (i * split_size)
          (if bool_decide (i < num_splits - 1)%nat then split_size
           else last_split_size)) <$> seq 0 num_splits.

(** [torch.chunk(t, chunks, dim)]. *)
Definition chunk (t : Tensor) (chunks : Z) (dim : Z) : result (list Tensor) :=
  if bool_decide (tensor_shape t = []) then
    Raise (RuntimeError "chunk expects at least a 1-dimensional tensor")
  else if bool_decide (chunks ≤ 0) then
    Raise (RuntimeError "chunk expects `chunks` to be greater than 0")
  else
    d ← wrap_dim dim (length (tensor_shape t));
    let dim_size := size t d in
    let split_size :=
      Z.to_nat ((Z.of_nat dim_size + chunks - 1) `div` chunks) in
    if bool_decide (split_size = 0%nat ∧ dim_size = 0%nat) then
      (* nothing to split: [chunks] pieces, all of size 0 along [d] *)
      Ok (replicate (Z.to_nat chunks) (narrow t d 0 0))
    else
      Ok (split t split_size d).

(** [t.new_empty(size)]: a fresh tensor of the given shape with [t]'s
    dtype and device; its elements are unspecified (shown as 0). *)
Definition new_empty (t : Tensor) (size : list nat) : Tensor :=
  {| tensor_dtype := tensor_dtype t;
     tensor_device := tensor_device t;
     tensor_requires_grad := false;
     tensor_shape := size;
     tensor_data := replicate (numel size) 0 |}.

(** Row-major content of the concatenation along a dimension: each piece
    is given by the length of its rows and its elements. *)
Fixpoint cat_data (blocks : nat) (pieces : list (nat * list Z)) : list Z :=
  match blocks with
  | O => []
  | S blocks =>
      mjoin ((λ p, take p.1 p.2) <$> pieces)
        ++ cat_data blocks ((λ p, (p.1, drop p.1 p.2)) <$> pieces)
  end.

(** [torch.cat(tensors, d)] for pieces that agree outside dimension [d];
    metadata is taken from the first piece. *)
Definition cat (tensors : list Tensor) (d : nat) : option Tensor :=
  t0 ← head tensors;
  let sh := tensor_shape t0 in
  Some {| tensor_dtype := tensor_dtype t0;
          tensor_device := tensor_device t0;
          tensor_requires_grad := tensor_requires_grad t0;
          tensor_shape := <[d := sum_list ((λ t, size t d) <$> tensors)]> sh;
          tensor_data :=
            cat_data (outer sh d)
              ((λ t, ((size t d * inner sh d)%nat, tensor_data t))
                 <$> tensors) |}.
End torch.

(** Slices [(start, length)] that follow one another without gap or
    overlap, from position [s] up to position [e]. *)
Fixpoint consecutive (s : nat) (parts : list (nat * nat)) (e : nat) : Prop :=
  match parts with
  | [] => s = e
  | p :: parts => p.1 = s ∧ consecutive (s + p.2) parts e
  end.

(** ** Chunking with empty placeholders *)

(** [chunks[0]] on a Python list. *)
Definition list_getitem0 {A} (l : list A) : result A :=
  match l with
  | [] => Raise (IndexError "list index out of range")
  | x :: _ => Ok x
  end.

(** The [while] loop of [_chunk_with_empty]; [fuel] bounds the number of
    iterations (every iteration adds one chunk, so [num_chunks] of them are
    always enough). *)
Fixpoint append_empty_loop (fuel : nat) (num_chunks : Z)
    (chunks : list Tensor) : result (list Tensor) :=
  if bool_decide (Z.of_nat (length chunks) < num_chunks) then
    match fuel with
    | O => Raise (RuntimeError "loop bound exhausted")
    | S fuel =>
        c0 ← list_getitem0 chunks;
        append_empty_loop fuel num_chunks (chunks ++ [torch.new_empty c0 [0%nat]])
    end
  else Ok chunks.

Definition _chunk_with_empty (tensor : Tensor) (num_chunks : Z) (dim : Z)
  : result (list Tensor) :=
  chunks ← torch.chunk tensor num_chunks dim;
  append_empty_loop (Z.to_nat num_chunks) num_chunks chunks.

(** ** Composability with other wrappers *)

Section Composable.
(** [_get_registry(module)] comes from the [contract] machinery: the
    dictionary of composable APIs already applied to the module, keyed by
    API name, or [None] when none was applied. *)
Context {Module RegistryItem : Type}.
Context (_get_registry : Module → option (gmap string RegistryItem)).

Definition _is_composable_with_fsdp (module : Module) : bool :=
  match _get_registry module with
  | None => true
  | Some registry => negb (bool_decide ("replicate" ∈ dom registry))
  end.
End Composable.

(** ** Distributed tensors *)

(** Python passes tensors by reference: a tensor object lives in a store
    and is named by its address. *)
Abbreviation loc := nat.
Abbreviation store := (gmap nat Tensor).

Inductive Placement :=
  | Shard (dim : Z)
  | Replicate.

(** Modelled from the spec: the [DTensor] class is not part of these
    sources.  The spec asks for "a view object that represents the global
    logical tensor without copying the local data and without attaching
    automatic-differentiation bookkeeping"; accordingly the constructor
    keeps the reference to the local tensor it is given together with the
    keyword arguments, and the new wrapper is a leaf of the autograd graph
    (no [grad_fn]). *)
Record DTensor (DeviceMesh : Type) := {
  _local_tensor : loc;
  device_mesh : DeviceMesh;
  placements : list Placement;
  shape : Size;
  stride : list Z;
  dtype_of : dtype;
  requires_grad : bool;
  grad_fn : option string
}.
Arguments _local_tensor {DeviceMesh} _.
Arguments device_mesh {DeviceMesh} _.
Arguments placements {DeviceMesh} _.
Arguments shape {DeviceMesh} _.
Arguments stride {DeviceMesh} _.
Arguments dtype_of {DeviceMesh} _.
Arguments requires_grad {DeviceMesh} _.
Arguments grad_fn {DeviceMesh} _.

Definition DTensor_new {DeviceMesh} (local_tensor : loc)
    (device_mesh : DeviceMesh) (placements : list Placement)
    (shape : Size) (dtype : dtype) (requires_grad : bool) (stride : list Z)
  : DTensor DeviceMesh :=
  {| _local_tensor := local_tensor; device_mesh := device_mesh;
     placements := placements; shape := shape; stride := stride;
     dtype_of := dtype; requires_grad := requires_grad; grad_fn := None |}.

(** Reading through a reference.  A reference held by a running program is
    never dangling; the error branch only makes the function total. *)
Definition deref (σ : store) (l : loc) : result Tensor :=
  match σ !! l with
  | Some t => Ok t
  | None => Raise (RuntimeError "dangling reference")
  end.

Definition _from_local_no_grad {DeviceMesh} (σ : store) (local_tensor : loc)
    (device_mesh : DeviceMesh) (placements : list Placement)
    (global_size : Size) (global_stride : list Z)
  : result (DTensor DeviceMesh) :=
  t ← deref σ local_tensor;
  Ok (DTensor_new local_tensor device_mesh placements global_size
        (tensor_dtype t) (tensor_requires_grad t) global_stride).

(** ** Fatal assertion helper *)

Inductive stream := stdout | stderr.

(** One call of [write] on a stream. *)
Record output := Write { write_to : stream; write_text : string }.

(** What the helper reads from its process: the outcome of
    [dist.get_rank()] (it raises when no default process group exists) and
    the formatted frames of the current call stack. *)
Record Process := {
  dist_get_rank : result Z;
  call_stack : list string
}.

(** Computations that write to the console and may raise. *)
Definition IO (A : Type) : Type := list output → list output * result A.

#[global] Instance IO_ret : MRet IO := λ A a out, (out, Ok a).
#[global] Instance IO_bind : MBind IO :=
  λ A B f m out,
    match m out with
    | (out', Ok a) => f a out'
    | (out', Raise e) => (out', Raise e)
    end.

Definition io_raise {A} (e : exn) : IO A := λ out, (out, Raise e).
Definition io_lift {A} (r : result A) : IO A := λ out, (out, r).
Definition io_write (s : stream) (text : string) : IO () :=
  λ out, (out ++ [Write s text], Ok ()).

Definition newline : string := String "010"%char "".

(** [str(v)] *)
Definition str (v : pyval) : string :=
  match v with
  | VNone => "None"
  | VBool true => "True"
  | VBool false => "False"
  | VInt n => pretty n
  | VStr s => s
  end.

(** [sep.join(parts)] *)
Definition join (sep : string) (parts : list string) : string :=
  match parts with
  | [] => ""
  | p :: parts => foldl (λ acc q, acc +:+ sep +:+ q) p parts
  end.

(** The [sep] and [end] keywords of [print]: [None] or a string. *)
Definition print_keyword (kwargs : gmap string pyval) (key default : string)
  : result string :=
  match kwargs !! key with
  | None | Some VNone => Ok default
  | Some (VStr s) => Ok s
  | Some _ => Raise (TypeError (key +:+ " must be None or a string"))
  end.

(** The builtin [print] with its keywords [sep], [end], [file] and [flush].
    None of the values of [pyval] is a file object, so a [file] other than
    [None] fails on its missing [write]. *)
Definition print (objects : list pyval) (kwargs : gmap string pyval) : IO () :=
  if bool_decide (dom kwargs ⊆ ({[ "sep"; "end"; "file"; "flush" ]} : gset string))
  then
    sep ← io_lift (print_keyword kwargs "sep" " ");
    end_ ← io_lift (print_keyword kwargs "end" newline);
    match kwargs !! "file" with
    | None | Some VNone =>
        io_write stdout (join sep (str <$> objects) +:+ end_)
    | Some _ => io_raise (AttributeError "object has no attribute 'write'")
    end
  else io_raise (TypeError "invalid keyword argument for print()").

(** [traceback.print_stack()] *)
Definition print_stack (p : Process) : IO () :=
  λ out, (out ++ (Write stderr <$> call_stack p), Ok ()).

(** Building an [AssertionError] from positional and keyword arguments:
    exceptions take no keywords. *)
Definition new_AssertionError (args : list pyval) (kwargs : gmap string pyval)
  : result exn :=
  if bool_decide (kwargs = ∅) then Ok (AssertionError args)
  else Raise (TypeError "AssertionError() takes no keyword arguments").

Definition _raise_assert_with_print {A} (p : Process)
    (args : list pyval) (kwargs : gmap string pyval) : IO A :=
  rank ← io_lift (dist_get_rank p);
  _ ← print [VStr ("[Rank " +:+ str (VInt rank) +:+ "] ")] {[ "end" := VStr "" ]};
  _ ← print args kwargs;
  _ ← print_stack p;
  e ← io_lift (new_AssertionError args kwargs);
  io_raise e.

(** [t.size()]: the shape as a [torch.Size]. *)
Definition Tensor_size (t : Tensor) : Size := Z.of_nat <$> tensor_shape t.

(** ** Sample tensors *)

(** A 2 x 3 tensor and a tensor with no rows, used to run the definitions
    above on concrete inputs. *)
Definition sample_2x3 : Tensor :=
  {| tensor_dtype := float32; tensor_device := cuda 0;
     tensor_requires_grad := false;
     tensor_shape := [2; 3]%nat; tensor_data := [1; 2; 3; 4; 5; 6] |}.

Definition sample_0x2 : Tensor :=
  {| tensor_dtype := float16; tensor_device := cpu;
     tensor_requires_grad := false;
     tensor_shape := [0; 2]%nat; tensor_data := [] |}.

(** * Properties *)

(** ** Padding *)

Lemma padded_size_cons (L F : Z) (rest : Size) :
  0 < F →
  _get_dim0_padded_size (L :: rest) F =
    Ok ((if bool_decide (L < F) then F
         else if bool_decide (L `mod` F ≠ 0) then L + F - L `mod` F
         else L) :: rest).
Proof.
  intros HF. unfold _get_dim0_padded_size, py_mod. simpl.
  case_bool_decide; [done|].
  destruct (decide (F = 0)) as [->|_]; [lia|]. simpl.
  by case_bool_decide.
Qed.




Lemma round_up_multiple (L F : Z) :
  0 < F → L `mod` F ≠ 0 →
  (F | L + F - L `mod` F) ∧ L ≤ L + F - L `mod` F ∧
  ∀ m, (F | m) → L ≤ m → L + F - L `mod` F ≤ m.
Proof.
  intros HF Hr.
  pose proof (Z.mod_pos_bound L F HF) as Hb.
  pose proof (Z.div_mod L F ltac:(lia)) as Hdm.
  split; [|split].
  - exists (L `div` F + 1). lia.
  - lia.
  - intros m [k ->] Hle.
    assert (L `div` F < k) by nia. nia.
Qed.

(** C2: for a size with leading dimension [L] and a positive factor [F],
    the padded size has leading dimension exactly [F] when [L < F], the
    smallest multiple of [F] that is at least [L] when [L >= F] (which is
    [L] itself when [F] divides [L]), and the same non-leading dimensions
    as the input. *)
Theorem padded_size_leading_dim (L F : Z) (rest : Size) :
  0 < F →
  ∃ L', _get_dim0_padded_size (L :: rest) F = Ok (L' :: rest) ∧
        (L < F → L' = F) ∧
        (F ≤ L → (F | L') ∧ L ≤ L' ∧ ∀ m, (F | m) → L ≤ m → L' ≤ m) ∧
        (F ≤ L → (F | L) → L' = L).
Proof.
  intros HF. eexists. split; [by apply padded_size_cons|].
  case_bool_decide as HLF; [repeat split; intros; lia|].
  case_bool_decide as Hr.
  - split; [lia|]. split; [intros _; by apply round_up_multiple|].
    intros _ Hdiv. apply Z.mod_divide in Hdiv; lia.
  - split; [lia|]. split; [|done].
    intros _. split; [apply Z.mod_divide; lia|]. split; [lia|]. by intros.
Qed.

Lemma padded_size_leading_dim_witness :
  ∃ L', _get_dim0_padded_size [10; 7] 4 = Ok [L'; 7] ∧
        (10 < 4 → L' = 4) ∧
        (4 ≤ 10 → (4 | L') ∧ 10 ≤ L' ∧ ∀ m, (4 | m) → 10 ≤ m → L' ≤ m) ∧
        (4 ≤ 10 → (4 | 10) → L' = 10).
Proof. apply (padded_size_leading_dim 10 4 [7]). lia. Defined.

(** C6: padding is idempotent.  For a positive factor, whatever
    [_get_dim0_padded_size] returns is returned unchanged when padded again
    with the same factor; and it does return for every non-empty size. *)
Theorem padded_size_idempotent (tensor_size : Size) (F : Z) :
  0 < F →
  (∀ out, _get_dim0_padded_size tensor_size F = Ok out →
          _get_dim0_padded_size out F = Ok out) ∧
  (tensor_size ≠ [] → is_Ok (_get_dim0_padded_size tensor_size F) = true).
Proof.
  intros HF. destruct tensor_size as [|L rest].
  { split; [intros out; by cbn|done]. }
  rewrite padded_size_cons by done. split; [|done].
  intros out [= <-]. rewrite padded_size_cons by done.
  do 2 f_equal.
  pose proof (Z.mod_pos_bound L F HF).
  pose proof (Z.div_mod L F ltac:(lia)).
  repeat case_bool_decide; try lia.
  - rewrite Z.mod_same in * by lia. done.
  - exfalso. destruct (round_up_multiple L F HF ltac:(done)) as [Hd _].
    apply Z.mod_divide in Hd; lia.
Qed.

Lemma padded_size_idempotent_witness :
  (∀ out, _get_dim0_padded_size [10; 7] 4 = Ok out →
          _get_dim0_padded_size out 4 = Ok out) ∧
  ([10; 7] ≠ [] → is_Ok (_get_dim0_padded_size [10; 7] 4) = true).
Proof. apply (padded_size_idempotent [10; 7] 4). lia. Defined.

Example padded_size_10_4 : _get_dim0_padded_size [10; 7] 4 = Ok [12; 7].
Proof. reflexivity. Qed.

Example padded_size_small : _get_dim0_padded_size [3; 5] 8 = Ok [8; 5].
Proof. reflexivity. Qed.

(** ** Method resolution order *)

Lemma mro_is_c3 (c : class) : c3_mro 3 c = Some (mro c).
Proof. by destruct c. Qed.

Example super_in_hybrid :
  super FSDPMeshInfo HSDPMeshInfo = Some DDPMeshInfo ∧
  super DDPMeshInfo HSDPMeshInfo = Some DataParallelMeshInfo ∧
  super FSDPMeshInfo FSDPMeshInfo = Some DataParallelMeshInfo.
Proof. done. Qed.

(** ** Mesh-info construction *)

Section MeshInfoFacts.
Context {DeviceMesh ProcessGroup : Type}.
Context `{!DeviceMeshOps DeviceMesh ProcessGroup}.
Implicit Types (m : DeviceMesh) (self o : MeshInfo DeviceMesh ProcessGroup).

(** Three nested calls are the deepest chain in this hierarchy, so the
    recursion limit is never what stops [__post_init__]. *)
Lemma post_init_fuel (n : nat) (c : class) self :
  post_init (3 + n) c self = post_init 3 c self.
Proof.
  destruct c, self as [[] ? [?|] [?|] ? ? ? ? ? ?]; simpl;
    repeat first [done | match goal with
      | |- context [DeviceMesh_size ?a ?b] =>
          destruct (DeviceMesh_size a b); simpl
      | |- context [DeviceMesh_get_group ?a ?b] =>
          destruct (DeviceMesh_get_group a b); simpl
      end].
Qed.

Lemma construct_unfold (c : class) m (sd rd : option Z) :
  construct c m sd rd =
    post_init 3 c
      {| __class__ := c; mesh := m; shard_mesh_dim := sd;
         replicate_mesh_dim := rd;
         shard_mesh_size := None; shard_process_group := None;
         shard_mesh_rank := None;
         replicate_mesh_size := None; replicate_process_group := None;
         replicate_mesh_rank := None |}.
Proof.
  unfold construct, __post_init__.
  change recursion_limit with (3 + 997)%nat. apply post_init_fuel.
Qed.

Ltac run_post_init :=
  rewrite ?construct_unfold; simpl;
  repeat match goal with
    | |- context [DeviceMesh_size ?a ?b] =>
        destruct (DeviceMesh_size a b) eqn:?; simpl
    | |- context [DeviceMesh_get_group ?a ?b] =>
        destruct (DeviceMesh_get_group a b) eqn:?; simpl
    end.

(** C4: whatever the mesh, constructing the base [DataParallelMeshInfo]
    with both [shard_mesh_dim] and [replicate_mesh_dim] left at [None]
    raises the assertion error that reports the invalid configuration. *)
Theorem base_needs_one_mesh_dim m :
  construct DataParallelMeshInfo m None None =
    Raise (AssertionError [VStr
      "At least one of shard_mesh_dim and replicate_mesh_dim must not be None"]).
Proof. by rewrite construct_unfold. Qed.

(** X2: the base check comes first in every class: constructed with both
    dimensions left at [None], each of the four classes raises the base
    class's assertion error, not the subclass's own. *)
Lemma every_class_needs_one_mesh_dim (c : class) m :
  construct c m None None =
    Raise (AssertionError [VStr
      "At least one of shard_mesh_dim and replicate_mesh_dim must not be None"]).
Proof. rewrite construct_unfold. by destruct c. Qed.

(** C5: [FSDPMeshInfo] cannot be constructed without a [shard_mesh_dim]
    (an assertion error is raised); when construction succeeds,
    [shard_mesh_size] is [mesh.size(shard_mesh_dim)] and [shard_mesh_rank]
    is the rank of the calling process in the group along
    [shard_mesh_dim]; and it does succeed whenever the mesh answers both
    queries.  [DDPMeshInfo] does the same with [replicate_mesh_dim]. *)
Theorem shard_and_replicate_info m (sd rd : option Z) :
  (sd = None →
     ∃ args, construct FSDPMeshInfo m sd rd = Raise (AssertionError args)) ∧
  (∀ o, construct FSDPMeshInfo m sd rd = Ok o →
     ∃ d size pg,
       sd = Some d ∧ DeviceMesh_size m d = Ok size ∧
       DeviceMesh_get_group m d = Ok pg ∧
       shard_mesh_size o = Some size ∧
       shard_process_group o = Some pg ∧
       shard_mesh_rank o = Some (ProcessGroup_rank pg)) ∧
  (∀ d size pg,
     sd = Some d → DeviceMesh_size m d = Ok size →
     DeviceMesh_get_group m d = Ok pg →
     is_Ok (construct FSDPMeshInfo m sd rd) = true) ∧
  (rd = None →
     ∃ args, construct DDPMeshInfo m sd rd = Raise (AssertionError args)) ∧
  (∀ o, construct DDPMeshInfo m sd rd = Ok o →
     ∃ d size pg,
       rd = Some d ∧ DeviceMesh_size m d = Ok size ∧
       DeviceMesh_get_group m d = Ok pg ∧
       replicate_mesh_size o = Some size ∧
       replicate_process_group o = Some pg ∧
       replicate_mesh_rank o = Some (ProcessGroup_rank pg)) ∧
  (∀ d size pg,
     rd = Some d → DeviceMesh_size m d = Ok size →
     DeviceMesh_get_group m d = Ok pg →
     is_Ok (construct DDPMeshInfo m sd rd) = true).
Proof.
  repeat split.
  - intros ->. destruct rd; run_post_init; eauto.
  - destruct sd as [d|], rd; run_post_init; intros o [= <-];
      by eexists _, _, _.
  - intros d size pg -> Hs Hg. destruct rd; run_post_init; congruence.
  - intros ->. destruct sd; run_post_init; eauto.
  - destruct rd as [d|], sd; run_post_init; intros o [= <-];
      by eexists _, _, _.
  - intros d size pg -> Hs Hg. destruct sd; run_post_init; congruence.
Qed.

(** A hybrid instance never receives the shard attributes: the two
    [super] calls of [HSDPMeshInfo.__post_init__] start the lookup after
    [FSDPMeshInfo] and after [DDPMeshInfo], so the body of
    [FSDPMeshInfo.__post_init__] is not among the methods run. *)
Lemma hybrid_never_sets_shard m (sd rd : option Z) o :
  construct HSDPMeshInfo m sd rd = Ok o →
  shard_mesh_size o = None ∧ shard_process_group o = None ∧
  shard_mesh_rank o = None.
Proof. destruct sd, rd; run_post_init; by intros [= <-]. Qed.
End MeshInfoFacts.

Lemma shard_and_replicate_info_witness :
  (∃ o, construct FSDPMeshInfo {| grid_shape := [2; 3]; grid_coord := [1; 2] |}
          (Some 0) None = Ok o ∧
        shard_mesh_size o = Some 2 ∧ shard_mesh_rank o = Some 1) ∧
  (∃ o, construct DDPMeshInfo {| grid_shape := [2; 3]; grid_coord := [1; 2] |}
          None (Some 1) = Ok o ∧
        replicate_mesh_size o = Some 3 ∧ replicate_mesh_rank o = Some 2) ∧
  (∃ args, construct FSDPMeshInfo {| grid_shape := [2; 3]; grid_coord := [1; 2] |}
             None (Some 1) = Raise (AssertionError args)).
Proof.
  pose proof (shard_and_replicate_info
                {| grid_shape := [2; 3]; grid_coord := [1; 2] |} (Some 0) None)
    as (_ & Hs & _).
  pose proof (shard_and_replicate_info
                {| grid_shape := [2; 3]; grid_coord := [1; 2] |} None (Some 1))
    as (Hn & _ & _ & _ & Hr & _).
  split; [|split].
  - eexists. split; [reflexivity|].
    destruct (Hs _ eq_refl) as (d & size & pg & [= <-] & [= <-] & [= <-] & ? & _ & ?).
    done.
  - eexists. split; [reflexivity|].
    destruct (Hr _ eq_refl) as (d & size & pg & [= <-] & [= <-] & [= <-] & ? & _ & ?).
    done.
  - by apply Hn.
Defined.

(** C1 (the code does not do this): over a 2 x 3 mesh with
    [shard_mesh_dim = 0] and [replicate_mesh_dim = 1], at any coordinates,
    constructing [HSDPMeshInfo] succeeds and yields the replicate size 3 and
    the replicate rank, but [shard_mesh_size] and [shard_mesh_rank] are
    never assigned: reading [shard_mesh_size] raises [AttributeError]
    instead of giving 2. *)
Theorem hybrid_lacks_shard_attributes (i j : Z) :
  ∃ o,
    construct HSDPMeshInfo {| grid_shape := [2; 3]; grid_coord := [i; j] |}
      (Some 0) (Some 1) = Ok o ∧
    replicate_mesh_size o = Some 3 ∧ replicate_mesh_rank o = Some j ∧
    shard_mesh_size o = None ∧ shard_mesh_rank o = None ∧
    getattr "shard_mesh_size" shard_mesh_size o =
      Raise (AttributeError "object has no attribute shard_mesh_size").
Proof. eexists. split; [reflexivity|]. done. Qed.

(** On the same input the shard parent alone does derive the size 2. *)
Example shard_parent_alone (i j : Z) :
  ∃ o,
    construct FSDPMeshInfo {| grid_shape := [2; 3]; grid_coord := [i; j] |}
      (Some 0) (Some 1) = Ok o ∧
    shard_mesh_size o = Some 2 ∧ shard_mesh_rank o = Some i.
Proof. eexists. split; [reflexivity|]. done. Qed.

(** Nor is the shard parent's validation run: a hybrid instance without a
    shard dimension is accepted. *)
Example hybrid_without_shard_dim :
  is_Ok (construct HSDPMeshInfo {| grid_shape := [2; 3]; grid_coord := [0; 0] |}
           None (Some 1)) = true.
Proof. reflexivity. Qed.

(** ** Composability *)

Section ComposableFacts.
Context {Module RegistryItem : Type}.
Context (_get_registry : Module → option (gmap string RegistryItem)).

(** C7: a module whose registry lists the replicate wrapper is not
    composable; a module with no registry, or with a registry (possibly
    empty) that does not list it, is composable. *)
Theorem composable_unless_replicate (module : Module) :
  (∀ registry item,
     _get_registry module = Some registry →
     registry !! "replicate" = Some item →
     _is_composable_with_fsdp _get_registry module = false) ∧
  (_get_registry module = None →
     _is_composable_with_fsdp _get_registry module = true) ∧
  (∀ registry,
     _get_registry module = Some registry →
     registry !! "replicate" = None →
     _is_composable_with_fsdp _get_registry module = true).
Proof.
  unfold _is_composable_with_fsdp. repeat split.
  - intros registry item -> Hin.
    rewrite bool_decide_eq_true_2; [done|].
    apply elem_of_dom. by exists item.
  - by intros ->.
  - intros registry -> Hnot.
    rewrite bool_decide_eq_false_2; [done|].
    by apply not_elem_of_dom.
Qed.
End ComposableFacts.

Lemma composable_unless_replicate_witness :
  _is_composable_with_fsdp (λ m : option (gmap string ()), m)
    (Some {[ "replicate" := () ]}) = false ∧
  _is_composable_with_fsdp (λ m : option (gmap string ()), m) None = true ∧
  _is_composable_with_fsdp (λ m : option (gmap string ()), m) (Some ∅) = true ∧
  _is_composable_with_fsdp (λ m : option (gmap string ()), m)
    (Some {[ "checkpoint" := () ]}) = true.
Proof.
  split; [|split; [|split]].
  - by eapply (composable_unless_replicate
                 (λ m : option (gmap string ()), m) (Some {[ "replicate" := () ]})).
  - by apply (composable_unless_replicate (λ m : option (gmap string ()), m) None).
  - by eapply (composable_unless_replicate
                 (λ m : option (gmap string ()), m) (Some ∅)).
  - by eapply (composable_unless_replicate
                 (λ m : option (gmap string ()), m) (Some {[ "checkpoint" := () ]})).
Defined.

(** ** Distributed tensor from a local shard *)

(** C8: for a live local tensor, [_from_local_no_grad] returns a
    distributed tensor whose shape is the given global size, whose stride
    is the given global stride and whose dtype is the local tensor's; it
    holds the very reference it was given (nothing is copied), carries the
    local tensor's [requires_grad] flag, and has no autograd node. *)
Theorem from_local_no_grad_wraps {DeviceMesh} (σ : store) (local_tensor : loc)
    (t : Tensor) (device_mesh : DeviceMesh) (placements : list Placement)
    (global_size : Size) (global_stride : list Z) :
  σ !! local_tensor = Some t →
  ∃ d,
    _from_local_no_grad σ local_tensor device_mesh placements
      global_size global_stride = Ok d ∧
    shape d = global_size ∧ stride d = global_stride ∧
    dtype_of d = tensor_dtype t ∧
    _local_tensor d = local_tensor ∧
    requires_grad d = tensor_requires_grad t ∧
    grad_fn d = None.
Proof.
  intros Ht. unfold _from_local_no_grad, deref. rewrite Ht. simpl.
  by eexists.
Qed.

Lemma from_local_no_grad_wraps_witness :
  ∃ d,
    _from_local_no_grad
      {[ 7%nat := {| tensor_dtype := bfloat16; tensor_device := cuda 0;
                     tensor_requires_grad := true;
                     tensor_shape := [2%nat]; tensor_data := [5; 6] |} ]}
      7%nat {| grid_shape := [4]; grid_coord := [1] |} [Shard 0] [8] [1]
      = Ok d ∧
    shape d = [8] ∧ stride d = [1] ∧ dtype_of d = bfloat16 ∧
    _local_tensor d = 7%nat ∧ requires_grad d = true ∧ grad_fn d = None.
Proof.
  apply (from_local_no_grad_wraps
            {[ 7%nat := {| tensor_dtype := bfloat16; tensor_device := cuda 0;
                           tensor_requires_grad := true;
                           tensor_shape := [2%nat]; tensor_data := [5; 6] |} ]}
            7%nat
            {| tensor_dtype := bfloat16; tensor_device := cuda 0;
               tensor_requires_grad := true;
               tensor_shape := [2%nat]; tensor_data := [5; 6] |}
            {| grid_shape := [4]; grid_coord := [1] |} [Shard 0] [8] [1]).
  reflexivity.
Defined.

(** ** Fatal assertion helper *)

Lemma append_empty_r (s : string) : s +:+ "" = s.
Proof. induction s as [|c s IH]; [done|]. cbv [append]. fold append. by rewrite IH. Qed.

Lemma print_end_empty (v : pyval) (out : list output) :
  print [v] {[ "end" := VStr "" ]} out = (out ++ [Write stdout (str v)], Ok ()).
Proof.
  unfold print, print_keyword. rewrite bool_decide_eq_true_2 by set_solver.
  rewrite (lookup_singleton_ne "end" "sep"), (lookup_singleton_ne "end" "file") by done.
  rewrite lookup_singleton_eq. unfold mbind, IO_bind, io_lift, io_write. cbn.
  by rewrite append_empty_r.
Qed.

Lemma print_plain (objects : list pyval) (out : list output) :
  print objects ∅ out =
    (out ++ [Write stdout (join " " (str <$> objects) +:+ newline)], Ok ()).
Proof.
  unfold print, print_keyword. rewrite bool_decide_eq_true_2 by set_solver.
  by rewrite !lookup_empty.
Qed.

(** C9: the helper never returns normally, whatever it is called with; and
    called with message arguments in a process that has a rank, it writes
    the rank prefix, then the message, then every frame of the call stack,
    and raises an assertion error carrying exactly those arguments. *)
Theorem raise_assert_with_print_raises {A} (p : Process) (args : list pyval)
    (out : list output) :
  (∀ kwargs, ∃ out' e,
     @_raise_assert_with_print A p args kwargs out = (out', Raise e)) ∧
  (∀ rank,
     dist_get_rank p = Ok rank →
     @_raise_assert_with_print A p args ∅ out =
       (out ++ [Write stdout ("[Rank " +:+ pretty rank +:+ "] ");
                Write stdout (join " " (str <$> args) +:+ newline)]
            ++ (Write stderr <$> call_stack p),
        Raise (AssertionError args))).
Proof.
  split.
  - intros kwargs. unfold _raise_assert_with_print, mbind, IO_bind, io_lift.
    destruct (dist_get_rank p) as [rank|e]; [|by eauto].
    rewrite print_end_empty.
    destruct (print args kwargs _) as [out1 [[]|e]]; [|by eauto].
    unfold print_stack, io_raise.
    destruct (new_AssertionError args kwargs); by eauto.
  - intros rank Hrank.
    unfold _raise_assert_with_print, mbind, IO_bind, io_lift.
    rewrite Hrank, print_end_empty, print_plain. cbn.
    by rewrite <- !app_assoc.
Qed.

Lemma raise_assert_with_print_raises_witness :
  @_raise_assert_with_print ()
    {| dist_get_rank := Ok 3; call_stack := ["frame 1"; "frame 2"] |}
    [VStr "unexpected shape"; VInt 4] ∅ [] =
    ([Write stdout "[Rank 3] ";
      Write stdout ("unexpected shape 4" +:+ newline);
      Write stderr "frame 1"; Write stderr "frame 2"],
     Raise (AssertionError [VStr "unexpected shape"; VInt 4])).
Proof.
  apply (proj2 (raise_assert_with_print_raises
           {| dist_get_rank := Ok 3; call_stack := ["frame 1"; "frame 2"] |}
           [VStr "unexpected shape"; VInt 4] []) 3).
  reflexivity.
Defined.

(** Keyword arguments change the exception: [print] may accept them, the
    exception constructor never does. *)
Example raise_assert_with_keyword :
  @_raise_assert_with_print ()
    {| dist_get_rank := Ok 0; call_stack := [] |}
    [VStr "oops"] {[ "end" := VStr "!" ]} [] =
    ([Write stdout "[Rank 0] "; Write stdout "oops!"],
     Raise (TypeError "AssertionError() takes no keyword arguments")).
Proof. reflexivity. Qed.

(** ** Slicing and concatenation *)

Section Slices.
Local Open Scope nat_scope.
Implicit Types (data : list Z) (parts : list (nat * nat)).

Lemma consecutive_app s m e parts1 parts2 :
  consecutive s parts1 m → consecutive m parts2 e →
  consecutive s (parts1 ++ parts2) e.
Proof.
  revert s. induction parts1 as [|p parts1 IH]; simpl; intros s.
  - by intros ->.
  - intros [-> H1] H2. split; [done|]. by apply IH.
Qed.

Lemma consecutive_scale k s e parts :
  consecutive s parts e →
  consecutive (s * k) ((λ p, (p.1 * k, p.2 * k)) <$> parts) (e * k).
Proof.
  revert s. induction parts as [|p parts IH]; simpl; intros s.
  - by intros ->.
  - intros [-> H]. split; [done|].
    rewrite <- Nat.mul_add_distr_r. by apply IH.
Qed.

Lemma consecutive_sum s e parts :
  consecutive s parts e → s + sum_list (snd <$> parts) = e.
Proof.
  revert s. induction parts as [|p parts IH]; cbn; intros s.
  - lia.
  - intros [_ H]. apply IH in H. lia.
Qed.

Lemma consecutive_bounds s e parts :
  consecutive s parts e → Forall (λ p, s ≤ p.1 ∧ p.1 + p.2 ≤ e) parts.
Proof.
  revert s. induction parts as [|p parts IH]; simpl; intros s; [done|].
  intros [Hp H]. pose proof (consecutive_sum _ _ _ H).
  constructor; [simpl; lia|].
  eapply Forall_impl; [by apply IH|]. simpl. lia.
Qed.

(** Consecutive slices of a list, joined, are the stretch they cover. *)
Lemma join_consecutive data s e parts :
  consecutive s parts e →
  mjoin ((λ p, take p.2 (drop p.1 data)) <$> parts)
    = take (e - s) (drop s data).
Proof.
  revert s. induction parts as [|p parts IH]; intros s.
  - simpl. intros ->. by rewrite Nat.sub_diag.
  - intros [Hp H]. simpl in Hp. subst s. rewrite fmap_cons.
    change (mjoin (?x :: ?l)) with (x ++ mjoin l). rewrite (IH _ H).
    pose proof (consecutive_sum _ _ _ H).
    rewrite <- drop_drop, take_take_drop. f_equal. lia.
Qed.

Lemma length_narrow_data blocks row off len data :
  off + len ≤ row → length data = blocks * row →
  length (torch.narrow_data blocks row off len data) = blocks * len.
Proof.
  intros Hle. revert data.
  induction blocks as [|blocks IH]; simpl; intros data Hlen; [done|].
  rewrite length_app, length_take, length_drop, IH.
  - lia.
  - rewrite length_drop. lia.
Qed.

(** Concatenating the slices taken at consecutive positions that cover a
    whole row gives back the data, block by block. *)
Lemma cat_narrow_data blocks row parts data :
  consecutive 0 parts row → length data = blocks * row →
  torch.cat_data blocks
    ((λ p, (p.2, torch.narrow_data blocks row p.1 p.2 data)) <$> parts)
  = data.
Proof.
  intros Hparts. pose proof (consecutive_bounds _ _ _ Hparts) as Hb.
  revert data. induction blocks as [|blocks IH]; intros data Hlen.
  - simpl. destruct data; [done|]. simpl in Hlen. lia.
  - simpl. rewrite <- !list_fmap_compose.
    transitivity (take row data ++ drop row data); [|apply take_drop].
    f_equal.
    + transitivity (take (row - 0) (drop 0 data));
        [|by rewrite Nat.sub_0_r, drop_0].
      rewrite <- (join_consecutive data 0 row parts Hparts).
      f_equal. apply Forall_fmap_ext. eapply Forall_impl; [exact Hb|].
      intros p [_ Hp]. simpl. rewrite take_app_length'; [done|].
      rewrite length_take, length_drop. lia.
    + rewrite <- (IH (drop row data)) at 1; [|rewrite length_drop; lia].
      f_equal. apply Forall_fmap_ext. eapply Forall_impl; [exact Hb|].
      intros p [_ Hp]. simpl. f_equal. rewrite drop_app_length'; [done|].
      rewrite length_take, length_drop. lia.
Qed.
End Slices.

(** ** Shapes *)

Section Shapes.
Local Open Scope nat_scope.
Implicit Types (sh : list nat) (t : Tensor).

Lemma numel_app sh1 sh2 : numel (sh1 ++ sh2) = numel sh1 * numel sh2.
Proof.
  induction sh1 as [|n sh1 IH]; simpl; [lia|].
  fold (numel (sh1 ++ sh2)) (numel sh1). rewrite IH. lia.
Qed.

Lemma numel_split sh d L :
  sh !! d = Some L →
  numel sh = torch.outer sh d * (L * torch.inner sh d).
Proof.
  intros Hd. rewrite <- (take_drop_middle sh d L Hd) at 1.
  by rewrite numel_app.
Qed.

Lemma outer_insert sh d n : torch.outer (<[d := n]> sh) d = torch.outer sh d.
Proof. unfold torch.outer. by rewrite take_insert_ge. Qed.

Lemma inner_insert sh d n : torch.inner (<[d := n]> sh) d = torch.inner sh d.
Proof. unfold torch.inner. rewrite drop_insert_lt; [done|lia]. Qed.

Lemma size_narrow t d start len :
  d < length (tensor_shape t) → torch.size (torch.narrow t d start len) d = len.
Proof.
  intros Hd. unfold torch.size, torch.narrow. simpl.
  by rewrite list_lookup_insert_eq.
Qed.

Lemma size_lookup t d :
  d < length (tensor_shape t) → tensor_shape t !! d = Some (torch.size t d).
Proof.
  intros Hd. unfold torch.size.
  by destruct (lookup_lt_is_Some_2 (tensor_shape t) d Hd) as [L ->].
Qed.

Lemma wrap_dim_lt dim ndim d : torch.wrap_dim dim ndim = Ok d → d < ndim.
Proof.
  unfold torch.wrap_dim. case_bool_decide; [|done].
  intros [= <-]. case_bool_decide; lia.
Qed.

(** Joining slices that cover dimension [d] from end to end restores the
    tensor. *)
Lemma cat_narrow t d parts :
  tensor_wf t → d < length (tensor_shape t) → parts ≠ [] →
  consecutive 0 parts (torch.size t d) →
  torch.cat ((λ p, torch.narrow t d p.1 p.2) <$> parts) d = Some t.
Proof.
  intros Hwf Hd Hne Hparts.
  destruct parts as [|p0 parts'] eqn:Eparts; [done|]. rewrite <- Eparts in *.
  pose proof (size_lookup t d Hd) as HL.
  assert (head ((λ p, torch.narrow t d p.1 p.2) <$> parts)
          = Some (torch.narrow t d p0.1 p0.2)) as Hhead by (by rewrite Eparts).
  unfold torch.cat. rewrite Hhead. clear Hhead Eparts. cbn [mbind option_bind].
  cbn [tensor_shape tensor_dtype tensor_device tensor_requires_grad
       torch.narrow].
  rewrite outer_insert, inner_insert, list_insert_insert_eq.
  rewrite <- !list_fmap_compose.
  assert (sum_list ((λ t', torch.size t' d) ∘ (λ p, torch.narrow t d p.1 p.2) <$> parts)
          = torch.size t d) as ->.
  { rewrite <- (consecutive_sum _ _ _ Hparts). simpl. f_equal.
    apply list_fmap_ext. intros _ p _. simpl. by apply size_narrow. }
  rewrite list_insert_id by done.
  assert (torch.cat_data (torch.outer (tensor_shape t) d)
            ((λ t', (torch.size t' d * torch.inner (tensor_shape t) d, tensor_data t'))
               ∘ (λ p, torch.narrow t d p.1 p.2) <$> parts)
          = tensor_data t) as ->; [|by destruct t].
  set (I := torch.inner (tensor_shape t) d).
  set (O := torch.outer (tensor_shape t) d).
  rewrite <- (cat_narrow_data O (torch.size t d * I)
               ((λ p, (p.1 * I, p.2 * I)) <$> parts) (tensor_data t)).
  - rewrite <- list_fmap_compose. f_equal.
    apply list_fmap_ext. intros _ p _. simpl.
    by rewrite size_narrow.
  - by apply (consecutive_scale I 0).
  - rewrite Hwf. by apply numel_split.
Qed.
End Shapes.

(** ** Chunking *)

Section Chunking.
Implicit Types (t : Tensor) (N dim : Z) (d : nat).

Lemma consecutive_equal_parts (s a n : nat) :
  consecutive (a * s) ((λ i, (i * s, s)%nat) <$> seq a n) ((a + n) * s).
Proof.
  revert a. induction n as [|n IH]; intros a; simpl.
  - f_equal. lia.
  - split; [done|].
    replace (a * s + s)%nat with (S a * s)%nat by lia.
    replace ((a + S n) * s)%nat with ((S a + n) * s)%nat by lia.
    apply IH.
Qed.

Lemma consecutive_replicate_empty (n : nat) :
  consecutive 0 (replicate n (0, 0)%nat) 0.
Proof. induction n; simpl; [done|]. by split. Qed.

(** The pieces returned by [torch.split] are [narrow]s at consecutive
    positions that cover the dimension. *)
Lemma split_parts t (s d : nat) :
  (1 ≤ s)%nat → (1 ≤ torch.size t d)%nat →
  ∃ parts,
    torch.split t s d = (λ p, torch.narrow t d p.1 p.2) <$> parts ∧
    consecutive 0 parts (torch.size t d) ∧
    (1 ≤ length parts)%nat ∧
    (length parts * s < torch.size t d + s)%nat.
Proof.
  intros Hs HL. unfold torch.split.
  set (L := torch.size t d) in *.
  set (k := Nat.max ((L + s - 1) / s) 1).
  set (last := (s - (s * k - L))%nat).
  pose proof (Nat.div_mod_eq (L + s - 1) s) as Hdm.
  pose proof (Nat.mod_upper_bound (L + s - 1) s ltac:(lia)) as Hr.
  assert (1 ≤ (L + s - 1) / s)%nat as Hq.
  { apply Nat.div_le_lower_bound; lia. }
  assert (k = ((L + s - 1) / s)%nat) as Hk by lia.
  assert (L ≤ s * k ∧ s * k < L + s)%nat as [Hlo Hhi] by (rewrite Hk; lia).
  exists (((λ i, (i * s, s)%nat) <$> seq 0 (k - 1)) ++ [((k - 1) * s, last)%nat]).
  split; [|split; [|split]].
  - replace k with (S (k - 1)) at 1 by lia.
    rewrite seq_S, !fmap_app, <- list_fmap_compose. f_equal.
    + apply list_fmap_ext. intros j i Hi%lookup_seq. simpl.
      by rewrite bool_decide_eq_true_2 by lia.
    + simpl. by rewrite bool_decide_eq_false_2 by lia.
  - eapply consecutive_app.
    + apply (consecutive_equal_parts s 0 (k - 1)).
    + simpl. split; [done|]. unfold last. nia.
  - rewrite length_app. simpl. lia.
  - rewrite length_app, length_fmap, length_seq. simpl. nia.
Qed.

(** What [torch.chunk] returns for a valid dimension and a positive
    number of chunks. *)
Lemma chunk_parts t N dim d :
  1 ≤ N → torch.wrap_dim dim (length (tensor_shape t)) = Ok d →
  ∃ parts,
    torch.chunk t N dim = Ok ((λ p, torch.narrow t d p.1 p.2) <$> parts) ∧
    consecutive 0 parts (torch.size t d) ∧
    (1 ≤ length parts)%nat ∧
    Z.of_nat (length parts) ≤ N ∧
    (torch.size t d = 0%nat → Z.of_nat (length parts) = N).
Proof.
  intros HN Hd. pose proof (wrap_dim_lt _ _ _ Hd) as Hlt.
  unfold torch.chunk.
  rewrite bool_decide_eq_false_2 by (intros E; rewrite E in Hlt; simpl in Hlt; lia).
  rewrite bool_decide_eq_false_2 by lia.
  rewrite Hd. cbn [mbind result_bind].
  set (L := torch.size t d).
  set (sZ := (Z.of_nat L + N - 1) `div` N).
  pose proof (Z.div_mod (Z.of_nat L + N - 1) N ltac:(lia)) as Hdm.
  pose proof (Z.mod_pos_bound (Z.of_nat L + N - 1) N ltac:(lia)) as Hr.
  fold sZ in Hdm.
  destruct (decide (L = 0%nat)) as [HL|HL].
  - assert (sZ = 0) as -> by nia.
    rewrite bool_decide_eq_true_2 by done.
    exists (replicate (Z.to_nat N) (0, 0)%nat).
    rewrite fmap_replicate, length_replicate. simpl.
    split; [done|]. split; [rewrite HL; apply consecutive_replicate_empty|].
    lia.
  - assert (1 ≤ sZ) by nia.
    rewrite bool_decide_eq_false_2 by lia.
    destruct (split_parts t (Z.to_nat sZ) d) as (parts & -> & Hc & Hlen & Hbound);
      [lia|fold L; lia|].
    exists parts. fold L in Hbound, Hc.
    split; [done|]. split; [done|]. split; [done|]. split; [|done].
    nia.
Qed.

(** The loop appends placeholders made from the first chunk until there
    are [N] chunks. *)
Lemma append_empty_loop_fills (fuel : nat) N (c0 : Tensor) (rest : list Tensor) :
  N - Z.of_nat (length (c0 :: rest)) ≤ Z.of_nat fuel →
  append_empty_loop fuel N (c0 :: rest) =
    Ok ((c0 :: rest)
          ++ replicate (Z.to_nat (N - Z.of_nat (length (c0 :: rest))))
               (torch.new_empty c0 [0%nat])).
Proof.
  revert rest. induction fuel as [|fuel IH]; intros rest Hfuel.
  - simpl in *. rewrite bool_decide_eq_false_2 by lia.
    replace (Z.to_nat _) with 0%nat by lia. by rewrite app_nil_r.
  - cbn [append_empty_loop]. case_bool_decide as Hlt.
    + cbn [list_getitem0 mbind result_bind].
      change ((c0 :: rest) ++ [torch.new_empty c0 [0%nat]])
        with (c0 :: (rest ++ [torch.new_empty c0 [0%nat]])).
      rewrite IH by (simpl in *; rewrite length_app; simpl; lia).
      f_equal. simpl. rewrite <- app_assoc. do 2 f_equal.
      rewrite length_app. simpl. simpl in Hlt.
      replace (Z.to_nat (N - Z.of_nat (S (length rest))))
        with (S (Z.to_nat (N - Z.of_nat (S (length rest + 1))))) by lia.
      done.
    + replace (Z.to_nat _) with 0%nat by lia. by rewrite app_nil_r.
Qed.

(** [_chunk_with_empty] returns the chunks of [torch.chunk] followed by
    as many placeholders as are missing. *)
Lemma chunk_with_empty_result t N dim d :
  1 ≤ N → torch.wrap_dim dim (length (tensor_shape t)) = Ok d →
  ∃ parts c0 rest,
    (λ p, torch.narrow t d p.1 p.2) <$> parts = c0 :: rest ∧
    consecutive 0 parts (torch.size t d) ∧
    torch.chunk t N dim = Ok (c0 :: rest) ∧
    Z.of_nat (length (c0 :: rest)) ≤ N ∧
    _chunk_with_empty t N dim =
      Ok ((c0 :: rest)
            ++ replicate (Z.to_nat (N - Z.of_nat (length (c0 :: rest))))
                 (torch.new_empty c0 [0%nat])).
Proof.
  intros HN Hd.
  destruct (chunk_parts t N dim d HN Hd) as (parts & Hchunk & Hc & Hlen & HleN & _).
  destruct ((λ p, torch.narrow t d p.1 p.2) <$> parts) as [|c0 rest] eqn:Ereal.
  { apply (f_equal length) in Ereal. rewrite length_fmap in Ereal.
    simpl in Ereal. lia. }
  assert (length (c0 :: rest) = length parts) as Hlen'.
  { by rewrite <- Ereal, length_fmap. }
  exists parts, c0, rest. rewrite Ereal.
  split; [done|]. split; [done|]. split; [done|].
  split; [by rewrite Hlen'|].
  unfold _chunk_with_empty. rewrite Hchunk. cbn [mbind result_bind].
  apply append_empty_loop_fills. lia.
Qed.

(** X9: the wrapper fails only where [torch.chunk] itself fails: the loop
    bound is never what stops it, and [chunks[0]] always exists. *)
Lemma chunk_with_empty_ok t N dim :
  is_Ok (_chunk_with_empty t N dim) = is_Ok (torch.chunk t N dim).
Proof.
  destruct (torch.chunk t N dim) as [real|e] eqn:Hchunk;
    [|unfold _chunk_with_empty; by rewrite Hchunk].
  assert (1 ≤ N ∧ ∃ d, torch.wrap_dim dim (length (tensor_shape t)) = Ok d)
    as [HN [d Hd]].
  { unfold torch.chunk in Hchunk. repeat case_bool_decide; try done.
    split; [lia|].
    destruct (torch.wrap_dim dim (length (tensor_shape t))); [by eauto|done]. }
  destruct (chunk_with_empty_result t N dim d HN Hd)
    as (parts & c0 & rest & _ & _ & _ & _ & ->).
  done.
Qed.

(** C3: for a well-formed tensor, a valid dimension and [N >= 1],
    [_chunk_with_empty] returns exactly [N] chunks: first the chunks that
    [torch.chunk] produced, whose concatenation along the split dimension
    is the original tensor and which keep its dtype and device, then
    placeholders of shape [(0,)] with no elements and with the same
    dtype and device. *)
Theorem chunk_with_empty_partitions t N dim d :
  tensor_wf t → 1 ≤ N →
  torch.wrap_dim dim (length (tensor_shape t)) = Ok d →
  ∃ real synth,
    torch.chunk t N dim = Ok real ∧
    _chunk_with_empty t N dim = Ok (real ++ synth) ∧
    Z.of_nat (length (real ++ synth)) = N ∧
    torch.cat real d = Some t ∧
    Forall (λ c, tensor_dtype c = tensor_dtype t ∧
                 tensor_device c = tensor_device t) real ∧
    Forall (λ c, tensor_shape c = [0%nat] ∧ tensor_data c = [] ∧
                 tensor_dtype c = tensor_dtype t ∧
                 tensor_device c = tensor_device t) synth.
Proof.
  intros Hwf HN Hd. pose proof (wrap_dim_lt _ _ _ Hd) as Hlt.
  destruct (chunk_with_empty_result t N dim d HN Hd)
    as (parts & c0 & rest & Ereal & Hc & Hchunk & HleN & Hres).
  assert (Forall (λ c, tensor_dtype c = tensor_dtype t ∧
                       tensor_device c = tensor_device t) (c0 :: rest)) as Hmeta.
  { rewrite <- Ereal. apply Forall_fmap, Forall_true. by intros p. }
  eexists _, _. split; [exact Hchunk|]. split; [exact Hres|].
  split; [|split; [|split]].
  - rewrite length_app, length_replicate. lia.
  - rewrite <- Ereal. apply cat_narrow; [done..| |done].
    intros ->. by simpl in Ereal.
  - done.
  - apply Forall_replicate. apply Forall_cons_1 in Hmeta as [[? ?] _].
    by repeat split.
Qed.

(** C10: when the tensor has size 0 along the split dimension and
    [N >= 1], [torch.chunk] still returns a non-empty list of chunks, all
    of size 0 along that dimension; so [chunks[0]] is defined and
    [_chunk_with_empty] returns exactly [N] chunks. *)
Theorem chunk_with_empty_total_on_empty_dim t N dim d :
  1 ≤ N → torch.wrap_dim dim (length (tensor_shape t)) = Ok d →
  torch.size t d = 0%nat →
  ∃ real c0 chunks,
    torch.chunk t N dim = Ok real ∧
    list_getitem0 real = Ok c0 ∧
    Forall (λ c, torch.size c d = 0%nat) real ∧
    _chunk_with_empty t N dim = Ok chunks ∧
    Z.of_nat (length chunks) = N.
Proof.
  intros HN Hd HL. pose proof (wrap_dim_lt _ _ _ Hd) as Hlt.
  destruct (chunk_with_empty_result t N dim d HN Hd)
    as (parts & c0 & rest & Ereal & Hc & Hchunk & HleN & Hres).
  eexists _, c0, _. split; [exact Hchunk|]. split; [done|].
  split; [|split; [exact Hres|]].
  - rewrite <- Ereal. apply Forall_fmap.
    eapply Forall_impl; [exact (consecutive_bounds _ _ _ Hc)|].
    intros p [_ Hp]. simpl. rewrite size_narrow by done. lia.
  - rewrite length_app, length_replicate. lia.
Qed.
End Chunking.

Lemma chunk_with_empty_partitions_witness :
  ∃ real synth,
    torch.chunk sample_2x3 4 0 = Ok real ∧
    _chunk_with_empty sample_2x3 4 0 = Ok (real ++ synth) ∧
    Z.of_nat (length (real ++ synth)) = 4 ∧
    torch.cat real 0 = Some sample_2x3 ∧
    Forall (λ c, tensor_dtype c = float32 ∧ tensor_device c = cuda 0) real ∧
    Forall (λ c, tensor_shape c = [0%nat] ∧ tensor_data c = [] ∧
                 tensor_dtype c = float32 ∧ tensor_device c = cuda 0) synth.
Proof.
  apply (chunk_with_empty_partitions sample_2x3 4 0 0);
    [reflexivity | lia | reflexivity].
Defined.

Lemma chunk_with_empty_total_on_empty_dim_witness :
  ∃ real c0 chunks,
    torch.chunk sample_0x2 3 0 = Ok real ∧
    list_getitem0 real = Ok c0 ∧
    Forall (λ c, torch.size c 0 = 0%nat) real ∧
    _chunk_with_empty sample_0x2 3 0 = Ok chunks ∧
    Z.of_nat (length chunks) = 3.
Proof.
  apply (chunk_with_empty_total_on_empty_dim sample_0x2 3 0 0);
    [lia | reflexivity | reflexivity].
Defined.

Example chunk_two_rows_in_four :
  _chunk_with_empty sample_2x3 4 0 =
    Ok [torch.narrow sample_2x3 0 0 1; torch.narrow sample_2x3 0 1 1;
        torch.new_empty sample_2x3 [0%nat]; torch.new_empty sample_2x3 [0%nat]].
Proof. reflexivity. Qed.

Example chunk_columns :
  tensor_data <$> default [] (match torch.chunk sample_2x3 2 1 with
                              | Ok l => Some l | Raise _ => None end)
    = [[1; 2; 4; 5]; [3; 6]].
Proof. reflexivity. Qed.

Example chunk_no_rows :
  _chunk_with_empty sample_0x2 3 0 = Ok (replicate 3 sample_0x2).
Proof. reflexivity. Qed.

(** * Further properties of the mesh-info classes *)

Section MeshInfoMore.
Context {DeviceMesh ProcessGroup : Type}.
Context `{!DeviceMeshOps DeviceMesh ProcessGroup}.
Implicit Types (m : DeviceMesh) (o : MeshInfo DeviceMesh ProcessGroup).

Ltac run_construct :=
  rewrite ?construct_unfold; simpl;
  repeat match goal with
    | |- context [DeviceMesh_size ?a ?b] =>
        destruct (DeviceMesh_size a b) eqn:?; simpl
    | |- context [DeviceMesh_get_group ?a ?b] =>
        destruct (DeviceMesh_get_group a b) eqn:?; simpl
    end.

(** X1: a successfully constructed mesh info of any of the four classes
    still has the class it was built as and the three dataclass fields it
    was given: [__post_init__] only adds attributes. *)
Lemma construct_keeps_fields (c : class) m (sd rd : option Z) o :
  construct c m sd rd = Ok o →
  __class__ o = c ∧ mesh o = m ∧
  shard_mesh_dim o = sd ∧ replicate_mesh_dim o = rd.
Proof. destruct c, sd, rd; run_construct; by intros [= <-]. Qed.

(** X3: [FSDPMeshInfo] never assigns the replicate attributes and
    [DDPMeshInfo] never assigns the shard attributes, even when the other
    dimension was supplied. *)
Lemma other_role_left_unset m (sd rd : option Z) :
  (∀ o, construct FSDPMeshInfo m sd rd = Ok o →
        replicate_mesh_size o = None ∧ replicate_process_group o = None ∧
        replicate_mesh_rank o = None) ∧
  (∀ o, construct DDPMeshInfo m sd rd = Ok o →
        shard_mesh_size o = None ∧ shard_process_group o = None ∧
        shard_mesh_rank o = None).
Proof.
  split; intros o; destruct sd, rd; run_construct; by intros [= <-].
Qed.

(** X4: an exception raised by the mesh, whether by [mesh.size] or, after
    that succeeded, by [mesh.get_group], leaves the constructor unchanged. *)
Lemma mesh_errors_propagate m (d : Z) (other : option Z) (e : exn) :
  (DeviceMesh_size m d = Raise e →
     construct FSDPMeshInfo m (Some d) other = Raise e ∧
     construct DDPMeshInfo m other (Some d) = Raise e) ∧
  (∀ size, DeviceMesh_size m d = Ok size →
     DeviceMesh_get_group m d = Raise e →
     construct FSDPMeshInfo m (Some d) other = Raise e ∧
     construct DDPMeshInfo m other (Some d) = Raise e).
Proof.
  split.
  - intros Hs. split; destruct other; run_construct; congruence.
  - intros size Hs Hg. split; destruct other; run_construct; congruence.
Qed.

(** X5: constructing [HSDPMeshInfo] does what constructing [DDPMeshInfo]
    does, on every mesh and every pair of dimensions: it raises the same
    exception, or succeeds with the same attributes (the replicate ones
    assigned, the shard ones not); only the class of the instance
    differs. *)
Lemma hybrid_acts_as_replicate m (sd rd : option Z) :
  match construct DDPMeshInfo m sd rd with
  | Raise e => construct HSDPMeshInfo m sd rd = Raise e
  | Ok o =>
      ∃ o', construct HSDPMeshInfo m sd rd = Ok o' ∧
            __class__ o' = HSDPMeshInfo ∧ mesh o' = mesh o ∧
            shard_mesh_dim o' = shard_mesh_dim o ∧
            replicate_mesh_dim o' = replicate_mesh_dim o ∧
            shard_mesh_size o' = shard_mesh_size o ∧
            shard_process_group o' = shard_process_group o ∧
            shard_mesh_rank o' = shard_mesh_rank o ∧
            replicate_mesh_size o' = replicate_mesh_size o ∧
            replicate_process_group o' = replicate_process_group o ∧
            replicate_mesh_rank o' = replicate_mesh_rank o
  end.
Proof.
  destruct sd, rd; run_construct; try done; eexists; by split.
Qed.
End MeshInfoMore.

Lemma construct_keeps_fields_witness :
  ∃ o, construct HSDPMeshInfo {| grid_shape := [2; 3]; grid_coord := [1; 2] |}
         (Some 0) (Some 1) = Ok o ∧
       __class__ o = HSDPMeshInfo ∧
       mesh o = {| grid_shape := [2; 3]; grid_coord := [1; 2] |} ∧
       shard_mesh_dim o = Some 0 ∧ replicate_mesh_dim o = Some 1.
Proof.
  eexists. split; [reflexivity|].
  by apply (construct_keeps_fields HSDPMeshInfo
              {| grid_shape := [2; 3]; grid_coord := [1; 2] |} (Some 0) (Some 1)).
Defined.

Lemma other_role_left_unset_witness :
  ∃ o, construct FSDPMeshInfo {| grid_shape := [2; 3]; grid_coord := [1; 2] |}
         (Some 0) (Some 1) = Ok o ∧
       replicate_mesh_size o = None ∧ replicate_process_group o = None ∧
       replicate_mesh_rank o = None.
Proof.
  eexists. split; [reflexivity|].
  by apply (proj1 (other_role_left_unset
                     {| grid_shape := [2; 3]; grid_coord := [1; 2] |}
                     (Some 0) (Some 1))).
Defined.

Lemma mesh_errors_propagate_witness :
  construct FSDPMeshInfo {| grid_shape := [2; 3]; grid_coord := [1; 2] |}
    (Some 5) None = Raise (IndexError "mesh dimension out of range") ∧
  construct DDPMeshInfo {| grid_shape := [2; 3]; grid_coord := [1] |}
    None (Some 1) = Raise (IndexError "mesh dimension out of range").
Proof.
  split.
  - by apply (proj1 (mesh_errors_propagate
                       {| grid_shape := [2; 3]; grid_coord := [1; 2] |} 5 None
                       (IndexError "mesh dimension out of range"))).
  - by eapply (proj2 (mesh_errors_propagate
                        {| grid_shape := [2; 3]; grid_coord := [1] |} 1 None
                        (IndexError "mesh dimension out of range"))).
Defined.

(** * Further properties of padding *)

(** The shape of every result for a positive factor (the content of C2,
    restated for use below). *)
Lemma padded_size_leading_dim_aux (L F : Z) (rest : Size) :
  0 < F →
  ∃ L', _get_dim0_padded_size (L :: rest) F = Ok (L' :: rest) ∧
        (L < F → L' = F) ∧
        (F ≤ L → (F | L') ∧ L ≤ L' ∧ ∀ m, (F | m) → L ≤ m → L' ≤ m).
Proof.
  intros HF. eexists. split; [by apply padded_size_cons|].
  case_bool_decide as HLF; [split; intros; lia|].
  case_bool_decide as Hr.
  - split; [lia|]. intros _. by apply round_up_multiple.
  - split; [lia|]. intros _. split; [apply Z.mod_divide; lia|].
    split; [lia|]. by intros.
Qed.

(** X6: when padding raises.  Whatever the sign of the factor,
    [_get_dim0_padded_size] raises exactly in two situations: the size is
    the empty tuple ([IndexError]), or the factor is 0 and the leading
    dimension is not negative ([ZeroDivisionError]). *)
Lemma padded_size_raises_iff (tensor_size : Size) (F : Z) :
  (tensor_size = [] →
     _get_dim0_padded_size tensor_size F =
       Raise (IndexError "tuple index out of range")) ∧
  (∀ L rest, tensor_size = L :: rest → F = 0 → 0 ≤ L →
     _get_dim0_padded_size tensor_size F =
       Raise (ZeroDivisionError "integer modulo by zero")) ∧
  (is_Ok (_get_dim0_padded_size tensor_size F) = false ↔
     tensor_size = [] ∨ (F = 0 ∧ ∃ L rest, tensor_size = L :: rest ∧ 0 ≤ L)).
Proof.
  split; [by intros ->|]. split.
  - intros L rest -> -> HL. unfold _get_dim0_padded_size, py_mod. simpl.
    by rewrite bool_decide_eq_false_2 by lia.
  - destruct tensor_size as [|L rest]; [by split; [left|]|].
    unfold _get_dim0_padded_size, py_mod. simpl.
    case_bool_decide as HLF; simpl.
    { split; [done|]. intros [|[-> (L' & rest' & [= <- <-] & ?)]]; [done|lia]. }
    destruct (decide (F = 0)) as [->|HF]; simpl.
    + split; [|done]. intros _. right. split; [done|]. exists L, rest.
      split; [done|lia].
    + case_bool_decide; simpl; (split; [done|]);
        by intros [|[? _]].
Qed.

Lemma padded_size_raises_iff_witness :
  _get_dim0_padded_size [] 4 = Raise (IndexError "tuple index out of range") ∧
  _get_dim0_padded_size [6; 2] 0 =
    Raise (ZeroDivisionError "integer modulo by zero") ∧
  is_Ok (_get_dim0_padded_size [-1; 2] 0) = true.
Proof.
  split; [|split].
  - by apply (proj1 (padded_size_raises_iff [] 4)).
  - by eapply (proj1 (proj2 (padded_size_raises_iff [6; 2] 0))).
  - destruct (is_Ok (_get_dim0_padded_size [-1; 2] 0)) eqn:E; [done|].
    apply (proj2 (proj2 (padded_size_raises_iff [-1; 2] 0))) in E.
    destruct E as [|[_ (L & rest & [= <- _] & ?)]]; [done|lia].
Defined.

(** X7: for a positive factor, padding keeps the number of dimensions,
    never shrinks the leading dimension, brings it to at least the factor,
    and adds less than one factor beyond the larger of the two. *)
Lemma padded_size_bounds (L F : Z) (rest : Size) :
  0 < F →
  ∃ L', _get_dim0_padded_size (L :: rest) F = Ok (L' :: rest) ∧
        L ≤ L' ∧ F ≤ L' ∧ L' < Z.max L F + F.
Proof.
  intros HF. eexists. split; [by apply padded_size_cons|].
  pose proof (Z.mod_pos_bound L F HF).
  repeat case_bool_decide; lia.
Qed.

Lemma padded_size_bounds_witness :
  ∃ L', _get_dim0_padded_size [10; 7] 4 = Ok [L'; 7] ∧
        10 ≤ L' ∧ 4 ≤ L' ∧ L' < Z.max 10 4 + 4.
Proof. apply (padded_size_bounds 10 4 [7]). lia. Defined.

(** X8: padding is monotone in the leading dimension: with the same
    positive factor, a larger leading dimension never gets a smaller
    padded one. *)
Lemma padded_size_monotone (L1 L2 F : Z) (rest1 rest2 : Size) (P1 P2 : Z)
    (out1 out2 : Size) :
  0 < F → L1 ≤ L2 →
  _get_dim0_padded_size (L1 :: rest1) F = Ok (P1 :: out1) →
  _get_dim0_padded_size (L2 :: rest2) F = Ok (P2 :: out2) →
  P1 ≤ P2.
Proof.
  intros HF Hle.
  destruct (padded_size_leading_dim_aux L1 F rest1 HF) as (Q1 & -> & Hlt1 & Hge1).
  destruct (padded_size_leading_dim_aux L2 F rest2 HF) as (Q2 & -> & Hlt2 & Hge2).
  intros [= <- _] [= <- _].
  destruct (decide (L1 < F)) as [H1|H1].
  - rewrite (Hlt1 H1). destruct (decide (L2 < F)) as [H2|H2].
    + rewrite (Hlt2 H2). lia.
    + destruct (Hge2 ltac:(lia)) as (_ & ? & _). lia.
  - destruct (Hge1 ltac:(lia)) as (_ & _ & Hmin).
    destruct (Hge2 ltac:(lia)) as (Hdiv & ? & _).
    apply Hmin; [done|lia].
Qed.

Lemma padded_size_monotone_witness : 8 ≤ 12.
Proof.
  apply (padded_size_monotone 5 10 4 [7] [3] 8 12 [7] [3]);
    [lia | lia | reflexivity | reflexivity].
Defined.

(** * Further properties of chunking *)

Section ChunkingMore.
Implicit Types (t : Tensor) (N dim : Z) (d : nat).

(** When the chunk size [ceil(L/N)] divides the dimension, all chunks are
    equal. *)
Lemma chunk_equal_parts t N dim d (k s : nat) :
  1 ≤ N → torch.wrap_dim dim (length (tensor_shape t)) = Ok d →
  (1 ≤ s)%nat → (1 ≤ k)%nat → torch.size t d = (k * s)%nat →
  (Z.of_nat (k * s) + N - 1) `div` N = Z.of_nat s →
  torch.chunk t N dim
    = Ok ((λ i, torch.narrow t d (i * s) s) <$> seq 0 k).
Proof.
  intros HN Hd Hs Hk HL Hdiv. pose proof (wrap_dim_lt _ _ _ Hd) as Hlt.
  unfold torch.chunk.
  rewrite bool_decide_eq_false_2 by (intros E; rewrite E in Hlt; simpl in Hlt; lia).
  rewrite bool_decide_eq_false_2 by lia.
  rewrite Hd. cbn [mbind result_bind]. rewrite HL, Hdiv, Nat2Z.id.
  rewrite bool_decide_eq_false_2 by lia.
  f_equal. unfold torch.split. rewrite HL.
  assert (((k * s + s - 1) / s)%nat = k) as Hq.
  { symmetry. apply (Nat.div_unique _ _ _ (s - 1)); lia. }
  rewrite Hq, Nat.max_l by lia.
  apply list_fmap_ext. intros j i _. simpl.
  case_bool_decide; [done|]. f_equal. lia.
Qed.

Lemma chunk_with_empty_equal_parts t N dim d (k s : nat) :
  1 ≤ N → torch.wrap_dim dim (length (tensor_shape t)) = Ok d →
  (1 ≤ s)%nat → (1 ≤ k)%nat → torch.size t d = (k * s)%nat →
  (Z.of_nat (k * s) + N - 1) `div` N = Z.of_nat s →
  _chunk_with_empty t N dim
    = Ok (((λ i, torch.narrow t d (i * s) s) <$> seq 0 k)
            ++ replicate (Z.to_nat N - k)
                 (torch.new_empty (torch.narrow t d 0 s) [0%nat])).
Proof.
  intros HN Hd Hs Hk HL Hdiv.
  destruct (chunk_with_empty_result t N dim d HN Hd)
    as (parts & c0 & rest & _ & _ & Hchunk & _ & ->).
  rewrite (chunk_equal_parts t N dim d k s) in Hchunk by done.
  injection Hchunk as Hchunk. rewrite <- Hchunk.
  rewrite length_fmap, length_seq. do 3 f_equal; [lia|].
  destruct k as [|k]; [lia|]. simpl in Hchunk. by injection Hchunk as <- _.
Qed.

(** X10: when the size along the split dimension is a positive multiple
    [N * s] of the number of chunks, [_chunk_with_empty] returns exactly the
    [N] slices of [s] consecutive rows, and no placeholder. *)
Lemma chunk_with_empty_even t N dim d (s : nat) :
  1 ≤ N → torch.wrap_dim dim (length (tensor_shape t)) = Ok d →
  (1 ≤ s)%nat → Z.of_nat (torch.size t d) = N * Z.of_nat s →
  _chunk_with_empty t N dim
    = Ok ((λ i, torch.narrow t d (i * s) s) <$> seq 0 (Z.to_nat N)).
Proof.
  intros HN Hd Hs HL.
  rewrite (chunk_with_empty_equal_parts t N dim d (Z.to_nat N) s);
    [|lia|done|lia|lia| |].
  - by rewrite Nat.sub_diag, app_nil_r.
  - lia.
  - symmetry. apply (Z.div_unique _ _ _ (N - 1)); lia.
Qed.

(** X12: when the split dimension has at least one but no more than [N]
    rows, each row becomes a chunk of its own, and the [N - L] missing
    chunks are placeholders made from the first row. *)
Lemma chunk_with_empty_short t N dim d :
  torch.wrap_dim dim (length (tensor_shape t)) = Ok d →
  (1 ≤ torch.size t d)%nat → Z.of_nat (torch.size t d) ≤ N →
  _chunk_with_empty t N dim
    = Ok (((λ i, torch.narrow t d i 1) <$> seq 0 (torch.size t d))
            ++ replicate (Z.to_nat N - torch.size t d)
                 (torch.new_empty (torch.narrow t d 0 1) [0%nat])).
Proof.
  intros Hd HL HN.
  rewrite (chunk_with_empty_equal_parts t N dim d (torch.size t d) 1);
    [|lia|done|lia|lia|lia|].
  - f_equal. f_equal. apply list_fmap_ext. intros j i _. simpl.
    f_equal. lia.
  - symmetry. apply (Z.div_unique _ _ _ (Z.of_nat (torch.size t d) - 1)); lia.
Qed.

(** X11: padding and chunking fit together.  If a tensor's size is what
    [_get_dim0_padded_size] returns for some size and a positive factor
    [F], then chunking it in [F] along dimension 0 gives [F] chunks of the
    same number [s >= 1] of rows, and no placeholder. *)
Lemma padded_tensor_chunks_evenly t (F : Z) (orig : Size) :
  0 < F → _get_dim0_padded_size orig F = Ok (Tensor_size t) →
  ∃ s : nat,
    (1 ≤ s)%nat ∧ Z.of_nat (torch.size t 0) = F * Z.of_nat s ∧
    _chunk_with_empty t F 0
      = Ok ((λ i, torch.narrow t 0 (i * s) s) <$> seq 0 (Z.to_nat F)).
Proof.
  intros HF Hpad. destruct orig as [|L0 rest]; [done|].
  destruct (padded_size_leading_dim_aux L0 F rest HF) as (L' & HL' & Hlt & Hge).
  rewrite HL' in Hpad. injection Hpad as Hpad.
  destruct t as [dt dv rg sh data]. unfold Tensor_size in Hpad. simpl in Hpad.
  destruct sh as [|L sh]; [done|]. injection Hpad as -> _.
  assert ((F | Z.of_nat L) ∧ F ≤ Z.of_nat L) as [[q Hq] HFL].
  { destruct (decide (L0 < F)) as [H|H].
    - rewrite (Hlt H) in *. split; [by exists 1; lia|lia].
    - destruct (Hge ltac:(lia)) as (? & ? & _). split; [done|lia]. }
  exists (Z.to_nat q). assert (1 ≤ q) by nia.
  split; [lia|]. unfold torch.size at 1. simpl. split; [lia|].
  rewrite (chunk_with_empty_equal_parts _ F 0 0 (Z.to_nat F) (Z.to_nat q));
    [|lia|done|lia|lia| |].
  - by rewrite Nat.sub_diag, app_nil_r.
  - unfold torch.size. simpl. lia.
  - symmetry. apply (Z.div_unique _ _ _ (F - 1)); lia.
Qed.
End ChunkingMore.

Lemma chunk_with_empty_even_witness :
  _chunk_with_empty sample_2x3 3 (-1)
    = Ok ((λ i, torch.narrow sample_2x3 1 (i * 1) 1) <$> seq 0 (Z.to_nat 3)).
Proof.
  apply (chunk_with_empty_even sample_2x3 3 (-1) 1 1);
    [lia | reflexivity | lia | reflexivity].
Defined.

Lemma chunk_with_empty_short_witness :
  _chunk_with_empty sample_2x3 4 0
    = Ok (((λ i, torch.narrow sample_2x3 0 i 1) <$> seq 0 (torch.size sample_2x3 0))
            ++ replicate (Z.to_nat 4 - torch.size sample_2x3 0)
                 (torch.new_empty (torch.narrow sample_2x3 0 0 1) [0%nat])).
Proof.
  apply (chunk_with_empty_short sample_2x3 4 0 0);
    [reflexivity | unfold torch.size, sample_2x3; simpl; lia
     | unfold torch.size, sample_2x3; simpl; lia].
Defined.

Lemma padded_tensor_chunks_evenly_witness :
  ∃ s : nat,
    (1 ≤ s)%nat ∧ Z.of_nat (torch.size sample_2x3 0) = 2 * Z.of_nat s ∧
    _chunk_with_empty sample_2x3 2 0
      = Ok ((λ i, torch.narrow sample_2x3 0 (i * s) s) <$> seq 0 (Z.to_nat 2)).
Proof.
  apply (padded_tensor_chunks_evenly sample_2x3 2 [1; 3]);
    [lia | reflexivity].
Defined.

(** * Well-formed chunks *)

Section ChunkInvariant.
Local Open Scope nat_scope.
Implicit Types (t : Tensor) (d : nat).

Lemma narrow_wf t d start len :
  tensor_wf t → d < length (tensor_shape t) →
  start + len ≤ torch.size t d →
  tensor_wf (torch.narrow t d start len).
Proof.
  unfold tensor_wf. intros Hwf Hd Hle.
  pose proof (size_lookup t d Hd) as HL.
  unfold torch.narrow. simpl.
  rewrite (numel_split (<[d := len]> (tensor_shape t)) d len)
    by (by apply list_lookup_insert_eq).
  rewrite outer_insert, inner_insert.
  apply length_narrow_data; [nia|].
  rewrite Hwf. by apply numel_split.
Qed.

(** X13: every chunk that [_chunk_with_empty] returns for a well-formed
    tensor is well-formed itself: real chunks and placeholders alike hold
    exactly as many elements as their shape announces. *)
Lemma chunk_with_empty_wf t (N dim : Z) (chunks : list Tensor) :
  tensor_wf t → _chunk_with_empty t N dim = Ok chunks →
  Forall tensor_wf chunks.
Proof.
  intros Hwf Hres.
  assert ((1 ≤ N)%Z ∧ ∃ d, torch.wrap_dim dim (length (tensor_shape t)) = Ok d)
    as [HN [d Hd]].
  { unfold _chunk_with_empty, torch.chunk in Hres.
    repeat case_bool_decide; try done. split; [lia|].
    destruct (torch.wrap_dim dim (length (tensor_shape t))); [by eauto|done]. }
  pose proof (wrap_dim_lt _ _ _ Hd) as Hlt.
  destruct (chunk_with_empty_result t N dim d HN Hd)
    as (parts & c0 & rest & Ereal & Hc & _ & _ & Hres').
  rewrite Hres' in Hres. injection Hres as <-.
  apply (Forall_app tensor_wf (c0 :: rest)). split.
  - rewrite <- Ereal. apply Forall_fmap.
    eapply Forall_impl; [exact (consecutive_bounds _ _ _ Hc)|].
    intros p [_ Hp]. simpl. apply narrow_wf; [done..|lia].
  - by apply Forall_replicate.
Qed.
End ChunkInvariant.

Lemma chunk_with_empty_wf_witness :
  Forall tensor_wf
    [torch.narrow sample_2x3 0 0 1; torch.narrow sample_2x3 0 1 1;
     torch.new_empty sample_2x3 [0%nat]; torch.new_empty sample_2x3 [0%nat]].
Proof.
  apply (chunk_with_empty_wf sample_2x3 4 0); reflexivity.
Defined.

(** * The placeholder loop on its own *)

(** X14: what the [while] loop does to any list of chunks, wherever it came
    from.  On an empty list with a positive target it fails on
    [chunks[0]]; otherwise it returns a list that starts with the chunks it
    was given, in order, and whose length is the larger of the target and
    the original length: it pads up to the target and never truncates. *)
Lemma append_empty_loop_extends (fuel : nat) (N : Z) (chunks : list Tensor) :
  N - Z.of_nat (length chunks) ≤ Z.of_nat fuel →
  (chunks = [] → 0 < N →
     append_empty_loop fuel N chunks =
       Raise (IndexError "list index out of range")) ∧
  (chunks ≠ [] ∨ N ≤ 0 →
     ∃ out, append_empty_loop fuel N chunks = Ok out ∧
            chunks `prefix_of` out ∧
            Z.of_nat (length out) = Z.max N (Z.of_nat (length chunks))).
Proof.
  intros Hfuel. split.
  - intros -> HN. simpl in Hfuel. destruct fuel as [|fuel]; [lia|].
    simpl. by rewrite bool_decide_eq_true_2 by (simpl; lia).
  - intros Hcase. destruct chunks as [|c0 rest].
    + destruct Hcase as [|HN]; [done|]. exists [].
      assert (append_empty_loop fuel N [] = Ok []) as ->.
      { destruct fuel; simpl; by rewrite bool_decide_eq_false_2 by (simpl; lia). }
      split; [done|]. split; [done|]. simpl. lia.
    + rewrite append_empty_loop_fills by done. eexists. split; [done|].
      split; [by apply prefix_app_r|].
      rewrite length_app, length_replicate. lia.
Qed.

Lemma append_empty_loop_extends_witness :
  (∃ out, append_empty_loop 3 3 [sample_2x3] = Ok out ∧
          [sample_2x3] `prefix_of` out ∧
          Z.of_nat (length out) = Z.max 3 (Z.of_nat (length [sample_2x3]))) ∧
  (∃ out, append_empty_loop 0 1 [sample_2x3; sample_0x2] = Ok out ∧
          [sample_2x3; sample_0x2] `prefix_of` out ∧
          Z.of_nat (length out)
            = Z.max 1 (Z.of_nat (length [sample_2x3; sample_0x2]))) ∧
  append_empty_loop 2 2 [] = Raise (IndexError "list index out of range").
Proof.
  split; [|split].
  - apply (append_empty_loop_extends 3 3 [sample_2x3]); [simpl; lia|].
    left. discriminate.
  - apply (append_empty_loop_extends 0 1 [sample_2x3; sample_0x2]);
      [simpl; lia|].
    left. discriminate.
  - apply (append_empty_loop_extends 2 2 []); [simpl; lia|reflexivity|lia].
Defined.

(** * Further properties of the composability check *)

Section ComposableMore.
Context {Module RegistryItem : Type}.
Context (_get_registry : Module → option (gmap string RegistryItem)).

(** X15: how the answer follows the registry.  Registering any API other
    than replicate leaves the answer unchanged; registering replicate makes
    the module not composable, whatever else is registered; removing it
    makes the module composable. *)
Lemma composable_follows_registry (m m' : Module)
    (registry : gmap string RegistryItem) (k : string) (item : RegistryItem) :
  _get_registry m = Some registry →
  (_get_registry m' = Some (<[k := item]> registry) → k ≠ "replicate" →
     _is_composable_with_fsdp _get_registry m'
       = _is_composable_with_fsdp _get_registry m) ∧
  (_get_registry m' = Some (<["replicate" := item]> registry) →
     _is_composable_with_fsdp _get_registry m' = false) ∧
  (_get_registry m' = Some (delete "replicate" registry) →
     _is_composable_with_fsdp _get_registry m' = true).
Proof.
  intros Hm. unfold _is_composable_with_fsdp. rewrite Hm.
  split; [|split].
  - intros -> Hk. f_equal. apply bool_decide_ext.
    rewrite dom_insert_L, elem_of_union, elem_of_singleton.
    split; [intros [E|?]; [by subst|done] | by right].
  - intros ->. rewrite bool_decide_eq_true_2; [done|].
    rewrite dom_insert_L, elem_of_union, elem_of_singleton. by left.
  - intros ->. rewrite bool_decide_eq_false_2; [done|].
    rewrite dom_delete_L, elem_of_difference, elem_of_singleton.
    by intros [_ ?].
Qed.
End ComposableMore.

Lemma composable_follows_registry_witness :
  _is_composable_with_fsdp (λ m : option (gmap string ()), m)
    (Some (<["checkpoint" := ()]> {[ "replicate" := () ]}))
    = _is_composable_with_fsdp (λ m : option (gmap string ()), m)
        (Some {[ "replicate" := () ]}) ∧
  _is_composable_with_fsdp (λ m : option (gmap string ()), m)
    (Some (<["replicate" := ()]> {[ "checkpoint" := () ]})) = false ∧
  _is_composable_with_fsdp (λ m : option (gmap string ()), m)
    (Some (delete "replicate" {[ "replicate" := () ]})) = true.
Proof.
  split; [|split].
  - apply (proj1 (composable_follows_registry
                    (λ m : option (gmap string ()), m)
                    (Some {[ "replicate" := () ]})
                    (Some (<["checkpoint" := ()]> {[ "replicate" := () ]}))
                    {[ "replicate" := () ]} "checkpoint" () eq_refl));
      [reflexivity|discriminate].
  - apply (proj1 (proj2 (composable_follows_registry
                    (λ m : option (gmap string ()), m)
                    (Some {[ "checkpoint" := () ]})
                    (Some (<["replicate" := ()]> {[ "checkpoint" := () ]}))
                    {[ "checkpoint" := () ]} "other" () eq_refl))).
    reflexivity.
  - apply (proj2 (proj2 (composable_follows_registry
                    (λ m : option (gmap string ()), m)
                    (Some {[ "replicate" := () ]})
                    (Some (delete "replicate" {[ "replicate" := () ]}))
                    {[ "replicate" := () ]} "other" () eq_refl))).
    reflexivity.
Defined.

(** * Further properties of the assertion helper *)

Lemma print_keyword_cases (kwargs : gmap string pyval) (key default : string) :
  (∃ s, print_keyword kwargs key default = Ok s) ∨
  (∃ msg, print_keyword kwargs key default = Raise (TypeError msg)).
Proof.
  unfold print_keyword. destruct (kwargs !! key) as [[]|]; by eauto.
Qed.

(** [print] writes one text to the standard output, or writes nothing and
    raises a [TypeError] or an [AttributeError]. *)
Lemma print_cases (objects : list pyval) (kwargs : gmap string pyval)
    (out : list output) :
  (∃ text, print objects kwargs out = (out ++ [Write stdout text], Ok ())) ∨
  (∃ msg, print objects kwargs out = (out, Raise (TypeError msg))) ∨
  (∃ msg, print objects kwargs out = (out, Raise (AttributeError msg))).
Proof.
  unfold print. case_bool_decide; [|by right; left; eauto].
  unfold mbind, IO_bind, io_lift.
  destruct (print_keyword_cases kwargs "sep" " ") as [[sep ->]|[msg ->]];
    [|by right; left; eauto].
  destruct (print_keyword_cases kwargs "end" newline) as [[end_ ->]|[msg ->]];
    [|by right; left; eauto].
  destruct (kwargs !! "file") as [[]|]; by eauto.
Qed.

(** X17: nothing already written is lost, and the rank comes first.  If
    [dist.get_rank()] raises, the helper raises the same exception and
    writes nothing; otherwise, whatever the arguments, what it writes
    starts with the rank prefix, appended to the earlier output. *)
Lemma raise_assert_rank_first {A} (p : Process) (args : list pyval)
    (kwargs : gmap string pyval) (out : list output) :
  (∀ e, dist_get_rank p = Raise e →
     @_raise_assert_with_print A p args kwargs out = (out, Raise e)) ∧
  (∀ rank, dist_get_rank p = Ok rank →
     ∃ more e,
       @_raise_assert_with_print A p args kwargs out =
         (out ++ Write stdout ("[Rank " +:+ pretty rank +:+ "] ") :: more,
          Raise e)).
Proof.
  split.
  - intros e He. unfold _raise_assert_with_print, mbind, IO_bind, io_lift.
    by rewrite He.
  - intros rank Hrank.
    unfold _raise_assert_with_print, mbind, IO_bind, io_lift.
    rewrite Hrank, print_end_empty.
    destruct (print_cases args kwargs
                (out ++ [Write stdout (str (VStr ("[Rank " +:+ str (VInt rank) +:+ "] ")))]))
      as [[text ->]|[[msg ->]|[msg ->]]].
    + unfold print_stack, io_raise. rewrite <- !app_assoc. simpl.
      destruct (new_AssertionError args kwargs); by eauto.
    + by exists [], (TypeError msg).
    + by exists [], (AttributeError msg).
Qed.

(** X16: keyword arguments defeat the helper.  In a process that has a
    rank, calling it with any keyword argument never raises an
    [AssertionError]: the exception is a [TypeError] or an
    [AttributeError], from [print] or from the exception constructor. *)
Lemma raise_assert_with_keywords {A} (p : Process) (args : list pyval)
    (kwargs : gmap string pyval) (out : list output) (rank : Z) :
  dist_get_rank p = Ok rank → kwargs ≠ ∅ →
  ∃ out' msg,
    @_raise_assert_with_print A p args kwargs out = (out', Raise (TypeError msg)) ∨
    @_raise_assert_with_print A p args kwargs out
      = (out', Raise (AttributeError msg)).
Proof.
  intros Hrank Hkw.
  unfold _raise_assert_with_print, mbind, IO_bind, io_lift.
  rewrite Hrank, print_end_empty.
  destruct (print_cases args kwargs
              (out ++ [Write stdout (str (VStr ("[Rank " +:+ str (VInt rank) +:+ "] ")))]))
    as [[text ->]|[[msg ->]|[msg ->]]]; [|by eauto..].
  unfold print_stack, io_raise, new_AssertionError.
  rewrite bool_decide_eq_false_2 by done. by eauto.
Qed.

Lemma raise_assert_rank_first_witness :
  ∃ more e,
    @_raise_assert_with_print ()
      {| dist_get_rank := Ok 3; call_stack := ["frame 1"] |}
      [VStr "bad"] {[ "sep" := VInt 1 ]} [Write stderr "earlier"] =
      ([Write stderr "earlier"] ++ Write stdout ("[Rank " +:+ pretty 3 +:+ "] ") :: more,
       Raise e).
Proof.
  apply (proj2 (raise_assert_rank_first
                  {| dist_get_rank := Ok 3; call_stack := ["frame 1"] |}
                  [VStr "bad"] {[ "sep" := VInt 1 ]} [Write stderr "earlier"]) 3).
  reflexivity.
Defined.

Lemma raise_assert_with_keywords_witness :
  ∃ out' msg,
    @_raise_assert_with_print ()
      {| dist_get_rank := Ok 0; call_stack := [] |}
      [VStr "oops"] {[ "flush" := VBool true ]} [] = (out', Raise (TypeError msg)) ∨
    @_raise_assert_with_print ()
      {| dist_get_rank := Ok 0; call_stack := [] |}
      [VStr "oops"] {[ "flush" := VBool true ]} []
      = (out', Raise (AttributeError msg)).
Proof.
  apply (raise_assert_with_keywords
           {| dist_get_rank := Ok 0; call_stack := [] |}
           [VStr "oops"] {[ "flush" := VBool true ]} [] 0); [reflexivity|].
  apply (insert_non_empty (M := gmap string)).
Defined.
